(** * The lmkd control-packet codec (include/lmkd.h)

    A shallow embedding of the inline packet encoders and decoders of
    [lmkd.h], and the properties of the wire protocol proved on it.

    - C [int], [pid_t]: 32-bit signed, kept as [Z] with the wrap written out.
    - C [uid_t], enum values, the argument and result of [htonl]/[ntohl]:
      32-bit unsigned.
    - [LMKD_CTRL_PACKET]: an [int] array that the functions receive as a
      pointer; kept as a [list Z] of slots.  An access outside the list is
      undefined behaviour in C and is an explicit [Undefined] outcome here.
    - Every function passes the memory it writes (the packet, the output
      struct) through explicitly. *)

From Stdlib Require Import ZArith Lia List.
From stdpp Require Import base option list.

Local Open Scope Z_scope.

(** ** Machine integers *)

Module CInt.

Definition INT_MIN : Z := - 2 ^ 31.
Definition INT_MAX : Z := 2 ^ 31 - 1.
Definition UINT_MAX : Z := 2 ^ 32 - 1.

(** Values of type [int] (also [pid_t]). *)
Definition is_int (z : Z) : Prop := INT_MIN <= z <= INT_MAX.

(** Values of type [unsigned int] (also [uid_t], [uint32_t] and the
    enumerations of the header, none of which has a negative
    enumerator). *)
Definition is_uint (z : Z) : Prop := 0 <= z <= UINT_MAX.

(** Conversion to [uint32_t]: reduction modulo 2^32. *)
Definition to_uint32 (z : Z) : Z := z mod 2 ^ 32.

(** Conversion to [int]: two's complement wrap. *)
Definition to_int32 (z : Z) : Z := (z + 2 ^ 31) mod 2 ^ 32 - 2 ^ 31.

(** The two data models Android builds this header for. *)
Inductive abi : Set := ILP32 | LP64.

Definition size_t_bits (a : abi) : Z :=
  match a with ILP32 => 32 | LP64 => 64 end.

(** Conversion to [size_t]. *)
Definition to_size_t (a : abi) (z : Z) : Z := z mod 2 ^ size_t_bits a.

(** [sizeof(int)] *)
Definition sizeof_int : Z := 4.

End CInt.

(** ** Byte order

    [htonl] and [ntohl] belong to the C library ([<arpa/inet.h>]), not to
    this header.  They are given their POSIX meaning: [htonl x] is the
    32-bit value whose representation in host memory is the big-endian
    (network) representation of [x], and [ntohl] is the converse. *)

Module ByteOrder.

Inductive endianness : Set := BigEndian | LittleEndian.

(** The four bytes of a 32-bit value, most significant first. *)
Definition be_bytes (x : Z) : list Z :=
  [ (x / 2 ^ 24) mod 256; (x / 2 ^ 16) mod 256; (x / 2 ^ 8) mod 256; x mod 256 ].

(** The value of a byte sequence read most significant byte first. *)
Definition be_value (bs : list Z) : Z :=
  fold_left (fun acc b => acc * 256 + b) bs 0.

(** The bytes a host of the given endianness keeps in memory for [x]. *)
Definition store_uint32 (e : endianness) (x : Z) : list Z :=
  match e with
  | BigEndian => be_bytes x
  | LittleEndian => rev (be_bytes x)
  end.

(** The value a host of the given endianness reads from four bytes. *)
Definition load_uint32 (e : endianness) (bs : list Z) : Z :=
  match e with
  | BigEndian => be_value bs
  | LittleEndian => be_value (rev bs)
  end.

Definition htonl (host : endianness) (x : Z) : Z :=
  load_uint32 host (store_uint32 BigEndian x).

Definition ntohl (host : endianness) (x : Z) : Z :=
  load_uint32 BigEndian (store_uint32 host x).

End ByteOrder.

(** ** Memory accesses and their outcome *)

Module Mem.

(** What goes wrong when a function is handed less memory than it
    touches: the access that left its array. *)
Inductive fault : Set :=
| PacketOutOfBounds (idx : Z)   (* packet[idx] outside the packet buffer *)
| TargetsOutOfBounds            (* *targets read past the targets array *)
| ProcsOutOfBounds (idx : Z).   (* params->procs[idx] outside the array *)

(** A call either returns, or has undefined behaviour. *)
Inductive outcome (A : Type) : Type :=
| Returns (a : A)
| Undefined (f : fault).
Arguments Returns {A} a.
Arguments Undefined {A} f.

#[global] Instance outcome_ret : MRet outcome := fun A a => Returns a.
#[global] Instance outcome_bind : MBind outcome := fun A B k m =>
  match m with
  | Returns a => k a
  | Undefined f => Undefined f
  end.

(** [a[idx]] as an rvalue, for an array kept as a list. *)
Definition array_get {A} (oob : Z -> fault) (a : list A) (idx : Z) : outcome A :=
  if 0 <=? idx then
    match a !! Z.to_nat idx with
    | Some v => Returns v
    | None => Undefined (oob idx)
    end
  else Undefined (oob idx).

(** [a[idx] = v] *)
Definition array_set {A} (oob : Z -> fault) (a : list A) (idx : Z) (v : A)
  : outcome (list A) :=
  if (0 <=? idx) && (idx <? Z.of_nat (length a)) then
    Returns (<[Z.to_nat idx := v]> a)
  else Undefined (oob idx).

Definition packet_get : list Z -> Z -> outcome Z := array_get PacketOutOfBounds.
Definition packet_set : list Z -> Z -> Z -> outcome (list Z) :=
  array_set PacketOutOfBounds.

End Mem.

Import CInt ByteOrder Mem.

(** ** The declarations of lmkd.h *)

(** [enum lmk_cmd] *)
Inductive lmk_cmd : Set :=
| LMK_TARGET
| LMK_PROCPRIO
| LMK_PROCREMOVE
| LMK_PROCPURGE
| LMK_GETKILLCNT
| LMK_SUBSCRIBE
| LMK_PROCKILL
| LMK_UPDATE_PROPS
| LMK_STAT_KILL_OCCURRED
| LMK_START_MONITORING
| LMK_BOOT_COMPLETED
| LMK_PROCS_PRIO.

(** The integer value of each enumerator. *)
Definition lmk_cmd_value (c : lmk_cmd) : Z :=
  match c with
  | LMK_TARGET => 0
  | LMK_PROCPRIO => 1
  | LMK_PROCREMOVE => 2
  | LMK_PROCPURGE => 3
  | LMK_GETKILLCNT => 4
  | LMK_SUBSCRIBE => 5
  | LMK_PROCKILL => 6
  | LMK_UPDATE_PROPS => 7
  | LMK_STAT_KILL_OCCURRED => 8
  | LMK_START_MONITORING => 9
  | LMK_BOOT_COMPLETED => 10
  | LMK_PROCS_PRIO => 11
  end.

(** The enumerator an integer names, if any.  A C object of type
    [enum lmk_cmd] can hold any [unsigned int]. *)
Definition lmk_cmd_of_value (z : Z) : option lmk_cmd :=
  match z with
  | 0 => Some LMK_TARGET
  | 1 => Some LMK_PROCPRIO
  | 2 => Some LMK_PROCREMOVE
  | 3 => Some LMK_PROCPURGE
  | 4 => Some LMK_GETKILLCNT
  | 5 => Some LMK_SUBSCRIBE
  | 6 => Some LMK_PROCKILL
  | 7 => Some LMK_UPDATE_PROPS
  | 8 => Some LMK_STAT_KILL_OCCURRED
  | 9 => Some LMK_START_MONITORING
  | 10 => Some LMK_BOOT_COMPLETED
  | 11 => Some LMK_PROCS_PRIO
  | _ => None
  end.

Definition MAX_TARGETS : Z := 6.
Definition CTRL_PACKET_MAX_SIZE : Z := sizeof_int * (MAX_TARGETS * 2 + 1).
Definition BUF_MAX : Z := 4096.

(** Number of slots of an [LMKD_CTRL_PACKET]:
    [CTRL_PACKET_MAX_SIZE / sizeof(int)]. *)
Definition CTRL_PACKET_SLOTS : Z := CTRL_PACKET_MAX_SIZE / sizeof_int.

(** An object of type [LMKD_CTRL_PACKET]: 13 slots, whatever they hold. *)
Definition is_ctrl_packet (packet : list Z) : Prop :=
  Z.of_nat (length packet) = CTRL_PACKET_SLOTS.

(** [struct lmk_target] *)
Record lmk_target : Set := { minfree : Z; oom_adj_score : Z }.

(** [enum proc_type] *)
Definition PROC_TYPE_FIRST : Z := 0.
Definition PROC_TYPE_APP : Z := PROC_TYPE_FIRST.
Definition PROC_TYPE_SERVICE : Z := 1.
Definition PROC_TYPE_COUNT : Z := 2.

(** [struct lmk_procprio] *)
Record lmk_procprio : Set := { pid : Z; uid : Z; oomadj : Z; ptype : Z }.

Definition LMK_PROCPRIO_FIELD_COUNT : Z := 4.
Definition LMK_PROCPRIO_SIZE : Z := LMK_PROCPRIO_FIELD_COUNT * sizeof_int.

(** [struct lmk_procremove] *)
Record lmk_procremove : Set := { procremove_pid : Z }.

(** [struct lmk_getkillcnt] *)
Record lmk_getkillcnt : Set := { min_oomadj : Z; max_oomadj : Z }.

(** [enum async_event_type] *)
Definition LMK_ASYNC_EVENT_FIRST : Z := 0.
Definition LMK_ASYNC_EVENT_KILL : Z := LMK_ASYNC_EVENT_FIRST.
Definition LMK_ASYNC_EVENT_STAT : Z := 1.
Definition LMK_ASYNC_EVENT_COUNT : Z := 2.

(** [struct lmk_subscribe] *)
Record lmk_subscribe : Set := { evt_type : Z }.

(** [struct lmk_update_props_reply] *)
Record lmk_update_props_reply : Set := { update_props_result : Z }.

(** [struct lmk_boot_completed_notif_reply] *)
Record lmk_boot_completed_notif_reply : Set := { boot_completed_result : Z }.

Definition PROCS_PRIO_MAX_RECORD_COUNT : Z := CTRL_PACKET_MAX_SIZE / LMK_PROCPRIO_SIZE.

(** [struct lmk_procs_prio]: the array [procs]. *)
Record lmk_procs_prio : Set := { procs : list lmk_procprio }.

(** An object of type [struct lmk_procs_prio]: 3 records. *)
Definition is_procs_prio (params : lmk_procs_prio) : Prop :=
  Z.of_nat (length (procs params)) = PROCS_PRIO_MAX_RECORD_COUNT.

(** Assignments to one member of a struct. *)
Definition set_minfree (v : Z) (t : lmk_target) : lmk_target :=
  {| minfree := v; oom_adj_score := oom_adj_score t |}.
Definition set_oom_adj_score (v : Z) (t : lmk_target) : lmk_target :=
  {| minfree := minfree t; oom_adj_score := v |}.
Definition set_pid (v : Z) (p : lmk_procprio) : lmk_procprio :=
  {| pid := v; uid := uid p; oomadj := oomadj p; ptype := ptype p |}.
Definition set_uid (v : Z) (p : lmk_procprio) : lmk_procprio :=
  {| pid := pid p; uid := v; oomadj := oomadj p; ptype := ptype p |}.
Definition set_oomadj (v : Z) (p : lmk_procprio) : lmk_procprio :=
  {| pid := pid p; uid := uid p; oomadj := v; ptype := ptype p |}.
Definition set_ptype (v : Z) (p : lmk_procprio) : lmk_procprio :=
  {| pid := pid p; uid := uid p; oomadj := oomadj p; ptype := v |}.
Definition set_min_oomadj (v : Z) (p : lmk_getkillcnt) : lmk_getkillcnt :=
  {| min_oomadj := v; max_oomadj := max_oomadj p |}.
Definition set_max_oomadj (v : Z) (p : lmk_getkillcnt) : lmk_getkillcnt :=
  {| min_oomadj := min_oomadj p; max_oomadj := v |}.

(** [params->procs[idx]] read, and one of its members assigned. *)
Definition procs_get (params : lmk_procs_prio) (idx : Z) : outcome lmk_procprio :=
  array_get ProcsOutOfBounds (procs params) idx.

Definition procs_assign (params : lmk_procs_prio) (idx : Z)
    (set : lmk_procprio -> lmk_procprio) : outcome lmk_procs_prio :=
  r ← procs_get params idx;
  l ← array_set ProcsOutOfBounds (procs params) idx (set r);
  mret {| procs := l |}.

(** The values the members of the payload structs can hold. *)
Definition target_typed (t : lmk_target) : Prop :=
  is_int (minfree t) /\ is_int (oom_adj_score t).
Definition procprio_typed (p : lmk_procprio) : Prop :=
  is_int (pid p) /\ is_uint (uid p) /\ is_int (oomadj p) /\ is_uint (ptype p).
Definition getkillcnt_typed (p : lmk_getkillcnt) : Prop :=
  is_int (min_oomadj p) /\ is_int (max_oomadj p).

(** ** Packets in memory and on the wire *)

(** The bytes of an [int] array in the memory of a host, which are the
    bytes that go on the wire when the packet is sent. *)
Definition packet_bytes (e : endianness) (packet : list Z) : list Z :=
  flat_map (fun s => store_uint32 e (to_uint32 s)) packet.

(** The [int] array a host [receiver] finds in a buffer filled with the
    bytes of the array of a host [sender]. *)
Definition reinterpret (sender receiver : endianness) (packet : list Z) : list Z :=
  map (fun s => to_int32 (load_uint32 receiver (store_uint32 sender (to_uint32 s))))
      packet.

(** ** Sample values *)

Module Example.

(** A control packet of zeroes. *)
Definition packet : list Z := [0; 0; 0; 0; 0; 0; 0; 0; 0; 0; 0; 0; 0].

(** The usual six minfree levels and their oom_adj scores. *)
Definition targets : list lmk_target :=
  [ {| minfree := 18432; oom_adj_score := 0 |};
    {| minfree := 23040; oom_adj_score := 100 |};
    {| minfree := 27648; oom_adj_score := 200 |};
    {| minfree := 32256; oom_adj_score := 250 |};
    {| minfree := 55296; oom_adj_score := 900 |};
    {| minfree := 80640; oom_adj_score := 950 |} ].

Definition procprio : lmk_procprio :=
  {| pid := 1234; uid := 10000; oomadj := 900; ptype := PROC_TYPE_SERVICE |}.

Definition no_procprio : lmk_procprio :=
  {| pid := 0; uid := 0; oomadj := 0; ptype := PROC_TYPE_APP |}.

Definition batch : lmk_procs_prio :=
  {| procs :=
      [ {| pid := 1; uid := 1; oomadj := 0; ptype := PROC_TYPE_APP |};
        {| pid := 2; uid := 2; oomadj := 1; ptype := PROC_TYPE_SERVICE |};
        {| pid := 3; uid := 3; oomadj := -1000; ptype := PROC_TYPE_APP |} ] |}.

Definition no_batch : lmk_procs_prio :=
  {| procs := [no_procprio; no_procprio; no_procprio] |}.

(** A control packet as it may be received: slots that are [int]s. *)
Definition received : list Z :=
  [5; 16777216; -771489792; 270991360; -2080178176; 16777216; 1; -2; 3; -4; 5;
   2147483647; -2147483648].

End Example.

(** ** The inline functions of lmkd.h *)

Section Codec.

(** The byte order of the host and its data model. *)
Variable host : endianness.
Variable model : abi.

(** [packet[i] = htonl(v)]: [v] is converted to [uint32_t] for the call,
    and the result to [int] for the store. *)
Definition hton_slot (v : Z) : Z := to_int32 (htonl host (to_uint32 v)).

(** [ntohl(packet[i])]: the slot is converted to [uint32_t] for the call. *)
Definition ntoh_slot (s : Z) : Z := ntohl host (to_uint32 s).

(** [idx++] on an [int]. *)
Definition incr (idx : Z) : Z := to_int32 (idx + 1).

(** [n * sizeof(int)], computed in [size_t]. *)
Definition times_sizeof_int (n : Z) : Z := to_size_t model (n * sizeof_int).

Definition lmkd_pack_get_cmd (pack : list Z) : outcome Z :=
  s ← packet_get pack 0;
  mret (to_uint32 (ntoh_slot s)).

Definition lmkd_pack_get_target (packet : list Z) (target_idx : Z)
    (target : lmk_target) : outcome lmk_target :=
  s ← packet_get packet (to_int32 (target_idx * 2 + 1));
  let target := set_minfree (to_int32 (ntoh_slot s)) target in
  s ← packet_get packet (to_int32 (target_idx * 2 + 2));
  let target := set_oom_adj_score (to_int32 (ntoh_slot s)) target in
  mret target.

(** The [while (target_cnt)] loop; [targets] is the array from the
    current position of the pointer on. *)
Fixpoint set_target_loop (target_cnt : nat) (packet : list Z)
    (targets : list lmk_target) (idx : Z) : outcome (list Z * Z) :=
  match target_cnt with
  | O => mret (packet, idx)
  | S target_cnt =>
      match targets with
      | [] => Undefined TargetsOutOfBounds
      | t :: targets =>
          packet ← packet_set packet idx (hton_slot (minfree t));
          let idx := incr idx in
          packet ← packet_set packet idx (hton_slot (oom_adj_score t));
          let idx := incr idx in
          set_target_loop target_cnt packet targets idx
      end
  end.

Definition lmkd_pack_set_target (packet : list Z) (targets : list lmk_target)
    (target_cnt : nat) : outcome (list Z * Z) :=
  let idx := 0 in
  packet ← packet_set packet idx (hton_slot (lmk_cmd_value LMK_TARGET));
  let idx := incr idx in
  '(packet, idx) ← set_target_loop target_cnt packet targets idx;
  mret (packet, times_sizeof_int idx).

Definition lmkd_pack_get_procprio (packet : list Z) (field_count : Z)
    (params : lmk_procprio) : outcome lmk_procprio :=
  s ← packet_get packet 1;
  let params := set_pid (to_int32 (ntoh_slot s)) params in
  s ← packet_get packet 2;
  let params := set_uid (to_uint32 (ntoh_slot s)) params in
  s ← packet_get packet 3;
  let params := set_oomadj (to_int32 (ntoh_slot s)) params in
  (* if field is missing assume PROC_TYPE_APP for backward compatibility *)
  v ← (if 3 <? field_count
       then s ← packet_get packet 4; mret (to_uint32 (ntoh_slot s))
       else mret PROC_TYPE_APP);
  let params := set_ptype v params in
  mret params.

Definition lmkd_pack_set_procprio (packet : list Z) (params : lmk_procprio)
    : outcome (list Z * Z) :=
  packet ← packet_set packet 0 (hton_slot (lmk_cmd_value LMK_PROCPRIO));
  packet ← packet_set packet 1 (hton_slot (pid params));
  packet ← packet_set packet 2 (hton_slot (uid params));
  packet ← packet_set packet 3 (hton_slot (oomadj params));
  packet ← packet_set packet 4 (hton_slot (to_int32 (ptype params)));
  mret (packet, times_sizeof_int 5).

Definition lmkd_pack_get_procremove (packet : list Z) (params : lmk_procremove)
    : outcome lmk_procremove :=
  s ← packet_get packet 1;
  mret {| procremove_pid := to_int32 (ntoh_slot s) |}.

Definition lmkd_pack_set_procremove (packet : list Z) (params : lmk_procremove)
    : outcome (list Z * Z) :=
  packet ← packet_set packet 0 (hton_slot (lmk_cmd_value LMK_PROCREMOVE));
  packet ← packet_set packet 1 (hton_slot (procremove_pid params));
  mret (packet, times_sizeof_int 2).

Definition lmkd_pack_set_procpurge (packet : list Z) : outcome (list Z * Z) :=
  packet ← packet_set packet 0 (hton_slot (lmk_cmd_value LMK_PROCPURGE));
  mret (packet, to_size_t model sizeof_int).

Definition lmkd_pack_get_getkillcnt (packet : list Z) (params : lmk_getkillcnt)
    : outcome lmk_getkillcnt :=
  s ← packet_get packet 1;
  let params := set_min_oomadj (to_int32 (ntoh_slot s)) params in
  s ← packet_get packet 2;
  let params := set_max_oomadj (to_int32 (ntoh_slot s)) params in
  mret params.

Definition lmkd_pack_set_getkillcnt (packet : list Z) (params : lmk_getkillcnt)
    : outcome (list Z * Z) :=
  packet ← packet_set packet 0 (hton_slot (lmk_cmd_value LMK_GETKILLCNT));
  packet ← packet_set packet 1 (hton_slot (min_oomadj params));
  packet ← packet_set packet 2 (hton_slot (max_oomadj params));
  mret (packet, times_sizeof_int 3).

Definition lmkd_pack_set_getkillcnt_repl (packet : list Z) (kill_cnt : Z)
    : outcome (list Z * Z) :=
  packet ← packet_set packet 0 (hton_slot (lmk_cmd_value LMK_GETKILLCNT));
  packet ← packet_set packet 1 (hton_slot kill_cnt);
  mret (packet, times_sizeof_int 2).

Definition lmkd_pack_get_subscribe (packet : list Z) (params : lmk_subscribe)
    : outcome lmk_subscribe :=
  s ← packet_get packet 1;
  mret {| evt_type := to_uint32 (ntoh_slot s) |}.

Definition lmkd_pack_set_subscribe (packet : list Z) (evt_type : Z)
    : outcome (list Z * Z) :=
  packet ← packet_set packet 0 (hton_slot (lmk_cmd_value LMK_SUBSCRIBE));
  packet ← packet_set packet 1 (hton_slot (to_int32 evt_type));
  mret (packet, times_sizeof_int 2).

Definition lmkd_pack_set_prockills (packet : list Z) (pid uid : Z)
    : outcome (list Z * Z) :=
  packet ← packet_set packet 0 (hton_slot (lmk_cmd_value LMK_PROCKILL));
  packet ← packet_set packet 1 (hton_slot pid);
  packet ← packet_set packet 2 (hton_slot uid);
  mret (packet, times_sizeof_int 3).

Definition lmkd_pack_set_update_props (packet : list Z) : outcome (list Z * Z) :=
  packet ← packet_set packet 0 (hton_slot (lmk_cmd_value LMK_UPDATE_PROPS));
  mret (packet, to_size_t model sizeof_int).

Definition lmkd_pack_start_monitoring (packet : list Z) : outcome (list Z * Z) :=
  packet ← packet_set packet 0 (hton_slot (lmk_cmd_value LMK_START_MONITORING));
  mret (packet, to_size_t model sizeof_int).

Definition lmkd_pack_set_update_props_repl (packet : list Z) (result : Z)
    : outcome (list Z * Z) :=
  packet ← packet_set packet 0 (hton_slot (lmk_cmd_value LMK_UPDATE_PROPS));
  packet ← packet_set packet 1 (hton_slot result);
  mret (packet, times_sizeof_int 2).

Definition lmkd_pack_get_update_props_repl (packet : list Z)
    (params : lmk_update_props_reply) : outcome lmk_update_props_reply :=
  s ← packet_get packet 1;
  mret {| update_props_result := to_int32 (ntoh_slot s) |}.

Definition lmkd_pack_set_boot_completed_notif (packet : list Z)
    : outcome (list Z * Z) :=
  packet ← packet_set packet 0 (hton_slot (lmk_cmd_value LMK_BOOT_COMPLETED));
  mret (packet, to_size_t model sizeof_int).

Definition lmkd_pack_set_boot_completed_notif_repl (packet : list Z) (result : Z)
    : outcome (list Z * Z) :=
  packet ← packet_set packet 0 (hton_slot (lmk_cmd_value LMK_BOOT_COMPLETED));
  packet ← packet_set packet 1 (hton_slot result);
  mret (packet, times_sizeof_int 2).

Definition lmkd_pack_get_boot_completed_notif_repl (packet : list Z)
    (params : lmk_boot_completed_notif_reply)
    : outcome lmk_boot_completed_notif_reply :=
  s ← packet_get packet 1;
  mret {| boot_completed_result := to_int32 (ntoh_slot s) |}.

(** One turn of the [for] loop of [lmkd_pack_get_procs_prio].  In each
    assignment the packet slot is read before the member is written. *)
Definition get_procs_prio_body (packet : list Z) (params : lmk_procs_prio)
    (procs_idx packetIdx : Z) : outcome (lmk_procs_prio * Z) :=
  s ← packet_get packet packetIdx;
  let packetIdx := incr packetIdx in
  params ← procs_assign params procs_idx (set_pid (to_int32 (ntoh_slot s)));
  s ← packet_get packet packetIdx;
  let packetIdx := incr packetIdx in
  params ← procs_assign params procs_idx (set_uid (to_uint32 (ntoh_slot s)));
  s ← packet_get packet packetIdx;
  let packetIdx := incr packetIdx in
  params ← procs_assign params procs_idx (set_oomadj (to_int32 (ntoh_slot s)));
  s ← packet_get packet packetIdx;
  let packetIdx := incr packetIdx in
  params ← procs_assign params procs_idx (set_ptype (to_uint32 (ntoh_slot s)));
  mret (params, packetIdx).

(** The [for] loop, with [n] turns left: [n] is [procs_count - procs_idx]. *)
Fixpoint get_procs_prio_loop (n : nat) (packet : list Z)
    (params : lmk_procs_prio) (procs_idx packetIdx : Z)
    : outcome (lmk_procs_prio * Z) :=
  match n with
  | O => mret (params, packetIdx)
  | S n =>
      '(params, packetIdx) ← get_procs_prio_body packet params procs_idx packetIdx;
      get_procs_prio_loop n packet params (incr procs_idx) packetIdx
  end.

(** Returns the output struct and the [int] result. *)
Definition lmkd_pack_get_procs_prio (packet : list Z) (params : lmk_procs_prio)
    (field_count : Z) : outcome (lmk_procs_prio * Z) :=
  if (field_count <? LMK_PROCPRIO_FIELD_COUNT)
     || negb (Z.rem field_count LMK_PROCPRIO_FIELD_COUNT =? 0)
  then mret (params, -1)
  else
    let procs_count := Z.quot field_count LMK_PROCPRIO_FIELD_COUNT in
    (* Start packet at 1 since 0 is cmd type *)
    let packetIdx := 1 in
    '(params, _) ← get_procs_prio_loop (Z.to_nat procs_count) packet params 0 packetIdx;
    mret (params, procs_count).

Definition set_procs_prio_body (packet : list Z) (params : lmk_procs_prio)
    (i packetIdx : Z) : outcome (list Z * Z) :=
  r ← procs_get params i;
  packet ← packet_set packet packetIdx (hton_slot (pid r));
  let packetIdx := incr packetIdx in
  r ← procs_get params i;
  packet ← packet_set packet packetIdx (hton_slot (uid r));
  let packetIdx := incr packetIdx in
  r ← procs_get params i;
  packet ← packet_set packet packetIdx (hton_slot (oomadj r));
  let packetIdx := incr packetIdx in
  r ← procs_get params i;
  packet ← packet_set packet packetIdx (hton_slot (to_int32 (ptype r)));
  let packetIdx := incr packetIdx in
  mret (packet, packetIdx).

(** The [for] loop, with [n] turns left: [n] is [procs_count - i]. *)
Fixpoint set_procs_prio_loop (n : nat) (packet : list Z)
    (params : lmk_procs_prio) (i packetIdx : Z) : outcome (list Z * Z) :=
  match n with
  | O => mret (packet, packetIdx)
  | S n =>
      '(packet, packetIdx) ← set_procs_prio_body packet params i packetIdx;
      set_procs_prio_loop n packet params (incr i) packetIdx
  end.

Definition lmkd_pack_set_procs_prio (packet : list Z) (params : lmk_procs_prio)
    (procs_count : Z) : outcome (list Z * Z) :=
  packet ← packet_set packet 0 (hton_slot (lmk_cmd_value LMK_PROCS_PRIO));
  let packetIdx := 1 in
  '(packet, packetIdx) ←
    set_procs_prio_loop (Z.to_nat procs_count) packet params 0 packetIdx;
  mret (packet, times_sizeof_int packetIdx).

(** ** The codec as a whole

    The header is a set of encoders and a set of decoders; to speak of
    "every encode operation" they are gathered into two types of calls,
    each call with the arguments of its function. *)

Inductive encode_call : Set :=
| SetTarget (targets : list lmk_target) (target_cnt : nat)
| SetProcprio (params : lmk_procprio)
| SetProcremove (params : lmk_procremove)
| SetProcpurge
| SetGetkillcnt (params : lmk_getkillcnt)
| SetGetkillcntRepl (kill_cnt : Z)
| SetSubscribe (evt_type : Z)
| SetProckills (pid uid : Z)
| SetUpdateProps
| StartMonitoring
| SetUpdatePropsRepl (result : Z)
| SetBootCompletedNotif
| SetBootCompletedNotifRepl (result : Z)
| SetProcsPrio (params : lmk_procs_prio) (procs_count : Z).

Definition encode (c : encode_call) (packet : list Z) : outcome (list Z * Z) :=
  match c with
  | SetTarget targets target_cnt => lmkd_pack_set_target packet targets target_cnt
  | SetProcprio params => lmkd_pack_set_procprio packet params
  | SetProcremove params => lmkd_pack_set_procremove packet params
  | SetProcpurge => lmkd_pack_set_procpurge packet
  | SetGetkillcnt params => lmkd_pack_set_getkillcnt packet params
  | SetGetkillcntRepl kill_cnt => lmkd_pack_set_getkillcnt_repl packet kill_cnt
  | SetSubscribe evt_type => lmkd_pack_set_subscribe packet evt_type
  | SetProckills pid uid => lmkd_pack_set_prockills packet pid uid
  | SetUpdateProps => lmkd_pack_set_update_props packet
  | StartMonitoring => lmkd_pack_start_monitoring packet
  | SetUpdatePropsRepl result => lmkd_pack_set_update_props_repl packet result
  | SetBootCompletedNotif => lmkd_pack_set_boot_completed_notif packet
  | SetBootCompletedNotifRepl result =>
      lmkd_pack_set_boot_completed_notif_repl packet result
  | SetProcsPrio params procs_count => lmkd_pack_set_procs_prio packet params procs_count
  end.

(** The command each encoder is written for. *)
Definition encode_cmd (c : encode_call) : lmk_cmd :=
  match c with
  | SetTarget _ _ => LMK_TARGET
  | SetProcprio _ => LMK_PROCPRIO
  | SetProcremove _ => LMK_PROCREMOVE
  | SetProcpurge => LMK_PROCPURGE
  | SetGetkillcnt _ | SetGetkillcntRepl _ => LMK_GETKILLCNT
  | SetSubscribe _ => LMK_SUBSCRIBE
  | SetProckills _ _ => LMK_PROCKILL
  | SetUpdateProps | SetUpdatePropsRepl _ => LMK_UPDATE_PROPS
  | StartMonitoring => LMK_START_MONITORING
  | SetBootCompletedNotif | SetBootCompletedNotifRepl _ => LMK_BOOT_COMPLETED
  | SetProcsPrio _ _ => LMK_PROCS_PRIO
  end.

(** The decoders other than the batch decoder, which alone has a result
    of its own besides the struct it fills. *)
Inductive decode_call : Set :=
| GetCmd
| GetTarget (target_idx : Z) (target : lmk_target)
| GetProcprio (field_count : Z) (params : lmk_procprio)
| GetProcremove (params : lmk_procremove)
| GetGetkillcnt (params : lmk_getkillcnt)
| GetSubscribe (params : lmk_subscribe)
| GetUpdatePropsRepl (params : lmk_update_props_reply)
| GetBootCompletedNotifRepl (params : lmk_boot_completed_notif_reply).

(** What a decoder hands back. *)
Inductive payload : Set :=
| Cmd (value : Z)
| Target (t : lmk_target)
| ProcPrio (p : lmk_procprio)
| ProcRemove (p : lmk_procremove)
| GetKillCnt (p : lmk_getkillcnt)
| Subscribe (p : lmk_subscribe)
| UpdatePropsReply (p : lmk_update_props_reply)
| BootCompletedReply (p : lmk_boot_completed_notif_reply).

Definition decode (c : decode_call) (packet : list Z) : outcome payload :=
  match c with
  | GetCmd => v ← lmkd_pack_get_cmd packet; mret (Cmd v)
  | GetTarget target_idx target =>
      t ← lmkd_pack_get_target packet target_idx target; mret (Target t)
  | GetProcprio field_count params =>
      p ← lmkd_pack_get_procprio packet field_count params; mret (ProcPrio p)
  | GetProcremove params =>
      p ← lmkd_pack_get_procremove packet params; mret (ProcRemove p)
  | GetGetkillcnt params =>
      p ← lmkd_pack_get_getkillcnt packet params; mret (GetKillCnt p)
  | GetSubscribe params =>
      p ← lmkd_pack_get_subscribe packet params; mret (Subscribe p)
  | GetUpdatePropsRepl params =>
      p ← lmkd_pack_get_update_props_repl packet params; mret (UpdatePropsReply p)
  | GetBootCompletedNotifRepl params =>
      p ← lmkd_pack_get_boot_completed_notif_repl packet params;
      mret (BootCompletedReply p)
  end.

(** The structural limits the header leaves to the caller: at most
    [MAX_TARGETS] targets, taken from an array that holds them; a target
    index below [MAX_TARGETS]; at most [PROCS_PRIO_MAX_RECORD_COUNT]
    records, out of a [struct lmk_procs_prio]. *)
Definition encode_within_limits (c : encode_call) : Prop :=
  match c with
  | SetTarget targets target_cnt =>
      Z.of_nat target_cnt <= MAX_TARGETS /\ (target_cnt <= length targets)%nat
  | SetProcsPrio params procs_count =>
      procs_count <= PROCS_PRIO_MAX_RECORD_COUNT /\ is_procs_prio params
  | _ => True
  end.

Definition decode_within_limits (c : decode_call) : Prop :=
  match c with
  | GetTarget target_idx _ => 0 <= target_idx < MAX_TARGETS
  | _ => True
  end.

(** *** The wire image of each packet, slot by slot *)

Definition wire_target (t : lmk_target) : list Z :=
  [hton_slot (minfree t); hton_slot (oom_adj_score t)].

Definition wire_record (r : lmk_procprio) : list Z :=
  [hton_slot (pid r); hton_slot (uid r); hton_slot (oomadj r);
   hton_slot (to_int32 (ptype r))].

Definition wire_payload (c : encode_call) : list Z :=
  match c with
  | SetTarget targets target_cnt => flat_map wire_target (take target_cnt targets)
  | SetProcprio params => wire_record params
  | SetProcremove params => [hton_slot (procremove_pid params)]
  | SetGetkillcnt params =>
      [hton_slot (min_oomadj params); hton_slot (max_oomadj params)]
  | SetGetkillcntRepl kill_cnt => [hton_slot kill_cnt]
  | SetSubscribe evt_type => [hton_slot (to_int32 evt_type)]
  | SetProckills pid uid => [hton_slot pid; hton_slot uid]
  | SetUpdatePropsRepl result | SetBootCompletedNotifRepl result =>
      [hton_slot result]
  | SetProcsPrio params procs_count =>
      flat_map wire_record (take (Z.to_nat procs_count) (procs params))
  | SetProcpurge | SetUpdateProps | StartMonitoring | SetBootCompletedNotif => []
  end.

(** Slot 0 holds the command, the payload follows. *)
Definition wire (c : encode_call) : list Z :=
  hton_slot (lmk_cmd_value (encode_cmd c)) :: wire_payload c.

(** A packet buffer after [slots] were written from slot 0 on. *)
Definition overwrite (slots packet : list Z) : list Z :=
  slots ++ drop (length slots) packet.

(** The record four consecutive slots decode to. *)
Definition decode_record (s1 s2 s3 s4 : Z) : lmk_procprio :=
  {| pid := to_int32 (ntoh_slot s1);
     uid := to_uint32 (ntoh_slot s2);
     oomadj := to_int32 (ntoh_slot s3);
     ptype := to_uint32 (ntoh_slot s4) |}.

Fixpoint decode_records (slots : list Z) : list lmk_procprio :=
  match slots with
  | s1 :: s2 :: s3 :: s4 :: slots => decode_record s1 s2 s3 s4 :: decode_records slots
  | _ => []
  end.

(** An encoding followed by a decoding of the packet it left. *)
Definition decodes_back {A} (enc : outcome (list Z * Z))
    (dec : list Z -> outcome A) (v : A) : Prop :=
  exists packet' size, enc = Returns (packet', size) /\ dec packet' = Returns v.

(** Where an index can stand once slot 0 is written: past it, or at
    [INT_MIN] after it wrapped, where no write returns. *)
Definition past_cmd (idx : Z) : Prop := 1 <= idx <= INT_MAX \/ idx = INT_MIN.


(** The arrays an encoder reads hold the elements it is asked to take. *)
Definition encode_args_fit (c : encode_call) : Prop :=
  match c with
  | SetTarget targets target_cnt => (target_cnt <= length targets)%nat
  | SetProcsPrio params procs_count =>
      (Z.to_nat procs_count <= length (procs params))%nat
  | _ => True
  end.

(** The arguments of an encoder in the order it writes them, as passed to
    [htonl]: the payload, and before it the command. *)
Definition payload_values (c : encode_call) : list Z :=
  match c with
  | SetTarget targets target_cnt =>
      flat_map (fun t => [minfree t; oom_adj_score t]) (take target_cnt targets)
  | SetProcprio params =>
      [pid params; uid params; oomadj params; to_int32 (ptype params)]
  | SetProcremove params => [procremove_pid params]
  | SetGetkillcnt params => [min_oomadj params; max_oomadj params]
  | SetGetkillcntRepl kill_cnt => [kill_cnt]
  | SetSubscribe evt_type => [to_int32 evt_type]
  | SetProckills pid uid => [pid; uid]
  | SetUpdatePropsRepl result | SetBootCompletedNotifRepl result => [result]
  | SetProcsPrio params procs_count =>
      flat_map (fun r => [pid r; uid r; oomadj r; to_int32 (ptype r)])
        (take (Z.to_nat procs_count) (procs params))
  | SetProcpurge | SetUpdateProps | StartMonitoring | SetBootCompletedNotif => []
  end.

Definition host_values (c : encode_call) : list Z :=
  lmk_cmd_value (encode_cmd c) :: payload_values c.

(** The function of the header behind each call. *)
Inductive encoder : Set :=
| lmkd_pack_set_target_fn
| lmkd_pack_set_procprio_fn
| lmkd_pack_set_procremove_fn
| lmkd_pack_set_procpurge_fn
| lmkd_pack_set_getkillcnt_fn
| lmkd_pack_set_getkillcnt_repl_fn
| lmkd_pack_set_subscribe_fn
| lmkd_pack_set_prockills_fn
| lmkd_pack_set_update_props_fn
| lmkd_pack_start_monitoring_fn
| lmkd_pack_set_update_props_repl_fn
| lmkd_pack_set_boot_completed_notif_fn
| lmkd_pack_set_boot_completed_notif_repl_fn
| lmkd_pack_set_procs_prio_fn.

Definition encoder_of (c : encode_call) : encoder :=
  match c with
  | SetTarget _ _ => lmkd_pack_set_target_fn
  | SetProcprio _ => lmkd_pack_set_procprio_fn
  | SetProcremove _ => lmkd_pack_set_procremove_fn
  | SetProcpurge => lmkd_pack_set_procpurge_fn
  | SetGetkillcnt _ => lmkd_pack_set_getkillcnt_fn
  | SetGetkillcntRepl _ => lmkd_pack_set_getkillcnt_repl_fn
  | SetSubscribe _ => lmkd_pack_set_subscribe_fn
  | SetProckills _ _ => lmkd_pack_set_prockills_fn
  | SetUpdateProps => lmkd_pack_set_update_props_fn
  | StartMonitoring => lmkd_pack_start_monitoring_fn
  | SetUpdatePropsRepl _ => lmkd_pack_set_update_props_repl_fn
  | SetBootCompletedNotif => lmkd_pack_set_boot_completed_notif_fn
  | SetBootCompletedNotifRepl _ => lmkd_pack_set_boot_completed_notif_repl_fn
  | SetProcsPrio _ _ => lmkd_pack_set_procs_prio_fn
  end.

(** A decoding followed by an encoding of what it gave, into the same
    buffer. *)
Definition reencodes {A} (dec : outcome A) (enc : A -> outcome (list Z * Z))
    (packet' : list Z) (size : Z) : Prop :=
  exists v, dec = Returns v /\ enc v = Returns (packet', size).

(** ** Facts on machine integers *)

Lemma to_uint32_range z : is_uint (to_uint32 z).
Proof.
  unfold is_uint, to_uint32, UINT_MAX.
  pose proof (Z.mod_pos_bound z (2 ^ 32) ltac:(lia)). lia.
Qed.

Lemma to_int32_range z : is_int (to_int32 z).
Proof.
  unfold is_int, to_int32, INT_MIN, INT_MAX.
  pose proof (Z.mod_pos_bound (z + 2 ^ 31) (2 ^ 32) ltac:(lia)). lia.
Qed.

Lemma to_uint32_id z : is_uint z -> to_uint32 z = z.
Proof.
  unfold is_uint, to_uint32, UINT_MAX. intros H.
  apply Z.mod_small. lia.
Qed.

Lemma to_int32_id z : is_int z -> to_int32 z = z.
Proof.
  unfold is_int, to_int32, INT_MIN, INT_MAX. intros H.
  rewrite Z.mod_small by lia. lia.
Qed.

(** An [int] survives the trip through [uint32_t] and back. *)
Lemma to_int32_to_uint32 z : is_int z -> to_int32 (to_uint32 z) = z.
Proof.
  unfold is_int, to_int32, to_uint32, INT_MIN, INT_MAX. intros H.
  change (2 ^ 32) with 4294967296. change (2 ^ 31) with 2147483648 in *.
  Z.div_mod_to_equations. lia.
Qed.

(** A [uint32_t] survives the trip through [int] and back. *)
Lemma to_uint32_to_int32 z : is_uint z -> to_uint32 (to_int32 z) = z.
Proof.
  unfold is_uint, to_int32, to_uint32, UINT_MAX. intros H.
  change (2 ^ 32) with 4294967296 in *. change (2 ^ 31) with 2147483648.
  Z.div_mod_to_equations. lia.
Qed.

Lemma to_size_t_small a z : 0 <= z < 2 ^ 32 -> to_size_t a z = z.
Proof.
  intros H. unfold to_size_t. apply Z.mod_small.
  destruct a; simpl size_t_bits; lia.
Qed.

(** ** Facts on byte order *)

Lemma be_value_4 a b c d :
  be_value [a; b; c; d] = ((a * 256 + b) * 256 + c) * 256 + d.
Proof. unfold be_value. simpl. lia. Qed.

Lemma be_bytes_value a b c d :
  0 <= a < 256 -> 0 <= b < 256 -> 0 <= c < 256 -> 0 <= d < 256 ->
  be_bytes (be_value [a; b; c; d]) = [a; b; c; d].
Proof.
  intros Ha Hb Hc Hd. rewrite be_value_4. unfold be_bytes.
  change (2 ^ 24) with 16777216. change (2 ^ 16) with 65536.
  change (2 ^ 8) with 256.
  repeat f_equal; Z.div_mod_to_equations; lia.
Qed.

Lemma be_value_bytes x :
  is_uint x -> be_value (be_bytes x) = x.
Proof.
  unfold is_uint, UINT_MAX. intros H.
  unfold be_bytes. rewrite be_value_4.
  change (2 ^ 32) with 4294967296 in H.
  change (2 ^ 24) with 16777216. change (2 ^ 16) with 65536.
  change (2 ^ 8) with 256.
  Z.div_mod_to_equations. lia.
Qed.

Lemma be_value_range a b c d :
  0 <= a < 256 -> 0 <= b < 256 -> 0 <= c < 256 -> 0 <= d < 256 ->
  is_uint (be_value [a; b; c; d]).
Proof.
  intros. rewrite be_value_4. unfold is_uint, UINT_MAX. lia.
Qed.

Lemma byte_range x k : 0 <= (x / k) mod 256 < 256.
Proof. apply Z.mod_pos_bound. lia. Qed.

Lemma byte_range0 x : 0 <= x mod 256 < 256.
Proof. apply Z.mod_pos_bound. lia. Qed.

Create HintDb byteorder.
#[local] Hint Resolve byte_range byte_range0 : byteorder.

Lemma htonl_range e x : is_uint (htonl e x).
Proof.
  destruct e; unfold htonl, load_uint32, store_uint32, be_bytes;
    simpl rev; apply be_value_range; auto with byteorder.
Qed.

Lemma ntohl_range e x : is_uint (ntohl e x).
Proof.
  destruct e; unfold ntohl, load_uint32, store_uint32, be_bytes;
    simpl rev; apply be_value_range; auto with byteorder.
Qed.

(** On a little-endian host both functions are the same byte swap, and
    the swap undoes itself. *)
Lemma swap_swap x :
  is_uint x ->
  be_value (rev (be_bytes (be_value (rev (be_bytes x))))) = x.
Proof.
  intros H. unfold be_bytes at 2. simpl rev at 2.
  rewrite be_bytes_value by auto with byteorder.
  simpl rev. change (be_value (be_bytes x) = x).
  now apply be_value_bytes.
Qed.

Lemma ntohl_htonl e x : is_uint x -> ntohl e (htonl e x) = x.
Proof.
  intros H. destruct e; unfold ntohl, htonl, load_uint32, store_uint32.
  - rewrite (be_value_bytes x H). now apply be_value_bytes.
  - now apply swap_swap.
Qed.

Lemma htonl_ntohl e x : is_uint x -> htonl e (ntohl e x) = x.
Proof.
  intros H. destruct e; unfold ntohl, htonl, load_uint32, store_uint32.
  - rewrite (be_value_bytes x H). now apply be_value_bytes.
  - now apply swap_swap.
Qed.

(** The result of [htonl], as the host keeps it in memory, is the argument
    in network byte order: most significant byte first. *)
Lemma htonl_network_order e x :
  is_uint x -> store_uint32 e (htonl e x) = be_bytes x.
Proof.
  intros H. destruct e; unfold htonl, load_uint32, store_uint32.
  - now rewrite (be_value_bytes x H).
  - unfold be_bytes at 2. simpl rev at 2.
    rewrite be_bytes_value by auto with byteorder.
    reflexivity.
Qed.

(** ** Facts on memory accesses *)

Lemma bind_Returns {A B} (a : A) (k : A -> outcome B) :
  (Returns a ≫= k) = k a.
Proof. reflexivity. Qed.

(** A read at the position where a known prefix ends. *)
Lemma array_get_app {A} oob (done : list A) x rest idx :
  idx = Z.of_nat (length done) ->
  array_get oob (done ++ x :: rest) idx = Returns x.
Proof.
  intros ->. unfold array_get.
  rewrite (proj2 (Z.leb_le 0 _)) by lia.
  rewrite Nat2Z.id, list_lookup_middle; reflexivity.
Qed.

(** A write at the position where a known prefix ends. *)
Lemma array_set_app {A} oob (done : list A) x rest idx v :
  idx = Z.of_nat (length done) ->
  array_set oob (done ++ x :: rest) idx v = Returns ((done ++ [v]) ++ rest).
Proof.
  intros ->. unfold array_set.
  rewrite (proj2 (Z.leb_le 0 _)) by lia.
  rewrite (proj2 (Z.ltb_lt _ _)) by (rewrite length_app; simpl; lia).
  simpl. rewrite Nat2Z.id.
  replace (length done) with (length done + 0)%nat at 1 by lia.
  rewrite insert_app_r. simpl. now rewrite <- app_assoc.
Qed.

(** A write that returns keeps the size of the array, and touches only
    its own slot. *)
Lemma array_set_Returns {A} oob (a a' : list A) idx v :
  array_set oob a idx v = Returns a' ->
  0 <= idx < Z.of_nat (length a) /\ a' = <[Z.to_nat idx := v]> a.
Proof.
  unfold array_set. intros H.
  destruct (0 <=? idx) eqn:H0; [|discriminate].
  destruct (idx <? Z.of_nat (length a)) eqn:H1; [|discriminate].
  simpl in H. injection H as <-.
  apply Z.leb_le in H0. apply Z.ltb_lt in H1. auto.
Qed.

Lemma array_get_lookup {A} oob (a : list A) (i : nat) x :
  a !! i = Some x -> array_get oob a (Z.of_nat i) = Returns x.
Proof.
  intros H. unfold array_get.
  rewrite (proj2 (Z.leb_le 0 _)) by lia.
  now rewrite Nat2Z.id, H.
Qed.

Lemma bind_Returns_inv {A B} (m : outcome A) (k : A -> outcome B) b :
  (m ≫= k) = Returns b -> exists a, m = Returns a /\ k a = Returns b.
Proof. destruct m as [a|f]; [eauto | discriminate]. Qed.

(** ** Slots and indices *)

Lemma ntoh_hton_slot v : ntoh_slot (hton_slot v) = to_uint32 v.
Proof.
  unfold ntoh_slot, hton_slot.
  rewrite to_uint32_to_int32 by apply htonl_range.
  apply ntohl_htonl, to_uint32_range.
Qed.

(** An [int] written to a slot is read back. *)
Lemma slot_roundtrip_int v : is_int v -> to_int32 (ntoh_slot (hton_slot v)) = v.
Proof. intros H. rewrite ntoh_hton_slot. now apply to_int32_to_uint32. Qed.

(** An unsigned value ([uid_t]) written to a slot is read back. *)
Lemma slot_roundtrip_uint v : is_uint v -> to_uint32 (ntoh_slot (hton_slot v)) = v.
Proof. intros H. rewrite ntoh_hton_slot, (to_uint32_id v H). now apply to_uint32_id. Qed.

(** An enumeration value, cast to [int] for the write, is read back. *)
Lemma slot_roundtrip_enum v :
  is_uint v -> to_uint32 (ntoh_slot (hton_slot (to_int32 v))) = v.
Proof.
  intros H. rewrite ntoh_hton_slot, (to_uint32_to_int32 v H).
  now apply to_uint32_id.
Qed.

Lemma incr_small idx : INT_MIN <= idx < INT_MAX -> incr idx = idx + 1.
Proof. intros H. apply to_int32_id. unfold is_int. lia. Qed.

Lemma times_sizeof_int_small n :
  0 <= n < 2 ^ 30 -> times_sizeof_int n = sizeof_int * n.
Proof.
  intros H. unfold times_sizeof_int, sizeof_int.
  rewrite to_size_t_small; lia.
Qed.

Lemma times_sizeof_int_slots n :
  0 <= n <= 13 -> times_sizeof_int n = sizeof_int * n.
Proof.
  intros H.
  apply times_sizeof_int_small. change (2 ^ 30) with 1073741824. lia.
Qed.

Lemma to_size_t_sizeof_int : to_size_t model sizeof_int = sizeof_int * 1.
Proof. apply to_size_t_small. unfold sizeof_int. split; [lia|reflexivity]. Qed.

Lemma ctrl_packet_slots packet :
  is_ctrl_packet packet ->
  exists s0 s1 s2 s3 s4 s5 s6 s7 s8 s9 s10 s11 s12,
    packet = [s0; s1; s2; s3; s4; s5; s6; s7; s8; s9; s10; s11; s12].
Proof.
  unfold is_ctrl_packet. change CTRL_PACKET_SLOTS with (Z.of_nat 13).
  intros H. apply Nat2Z.inj in H.
  do 13 (destruct packet as [|? packet]; [discriminate H|]).
  destruct packet; [|discriminate H].
  repeat eexists.
Qed.

Lemma procs_prio_records params :
  is_procs_prio params ->
  exists r0 r1 r2, params = {| procs := [r0; r1; r2] |}.
Proof.
  unfold is_procs_prio. change PROCS_PRIO_MAX_RECORD_COUNT with (Z.of_nat 3).
  intros H. apply Nat2Z.inj in H. destruct params as [l]. simpl in H.
  do 3 (destruct l as [|? l]; [discriminate H|]).
  destruct l; [|discriminate H].
  repeat eexists.
Qed.

(** ** The loops *)

(** Moves past the statements whose outcome is known. *)
Ltac next_statement := rewrite ?bind_Returns; cbv beta zeta.

Lemma set_target_loop_spec target_cnt :
  forall done rest targets idx,
    idx = Z.of_nat (length done) ->
    (2 * target_cnt <= length rest)%nat ->
    (target_cnt <= length targets)%nat ->
    idx + 2 * Z.of_nat target_cnt <= INT_MAX ->
    set_target_loop target_cnt (done ++ rest) targets idx =
      Returns ((done ++ flat_map wire_target (take target_cnt targets))
                 ++ drop (2 * target_cnt) rest,
               idx + 2 * Z.of_nat target_cnt).
Proof.
  induction target_cnt as [|cnt IH]; intros done rest targets idx Hidx Hrest Htg Hmax.
  - simpl. rewrite app_nil_r, Z.add_0_r. reflexivity.
  - destruct targets as [|t targets]; [simpl in Htg; lia|].
    destruct rest as [|a [|b rest]]; [simpl in Hrest; lia ..|].
    assert (Hint : INT_MAX = 2147483647) by reflexivity.
    assert (Hmin : INT_MIN = -2147483648) by reflexivity.
    cbn [set_target_loop]. unfold packet_set.
    rewrite (array_set_app _ done a) by exact Hidx.
    next_statement.
    rewrite (incr_small idx) by lia.
    rewrite (array_set_app _ (done ++ [_]) b)
      by (rewrite length_app; simpl; lia).
    next_statement.
    rewrite (incr_small (idx + 1)) by lia.
    fold packet_set.
    rewrite IH;
      [ | rewrite !length_app; simpl; lia | simpl in Hrest; lia
        | simpl in Htg; lia | lia ].
    replace (2 * S cnt)%nat with (S (S (2 * cnt))) by lia.
    simpl. rewrite <- !app_assoc. simpl.
    do 2 f_equal. lia.
Qed.

Lemma set_procs_prio_body_spec done a b c d rest params (k : nat) r packetIdx :
  packetIdx = Z.of_nat (length done) ->
  procs params !! k = Some r ->
  packetIdx + 4 <= INT_MAX ->
  set_procs_prio_body (done ++ a :: b :: c :: d :: rest) params (Z.of_nat k) packetIdx =
    Returns ((done ++ wire_record r) ++ rest, packetIdx + 4).
Proof.
  intros Hidx Hr Hmax.
  assert (Hint : INT_MAX = 2147483647) by reflexivity.
  assert (Hmin : INT_MIN = -2147483648) by reflexivity.
  unfold set_procs_prio_body, procs_get, packet_set.
  rewrite (array_get_lookup _ _ _ _ Hr).
  next_statement.
  rewrite (array_set_app _ done a) by exact Hidx.
  next_statement.
  rewrite (incr_small packetIdx) by lia.
  rewrite (array_set_app _ (done ++ [_]) b)
    by (rewrite length_app; simpl; lia).
  next_statement.
  rewrite (incr_small (packetIdx + 1)) by lia.
  rewrite (array_set_app _ ((done ++ [_]) ++ [_]) c)
    by (rewrite !length_app; simpl; lia).
  next_statement.
  rewrite (incr_small (packetIdx + 1 + 1)) by lia.
  rewrite (array_set_app _ (((done ++ [_]) ++ [_]) ++ [_]) d)
    by (rewrite !length_app; simpl; lia).
  next_statement.
  rewrite (incr_small (packetIdx + 1 + 1 + 1)) by lia.
  unfold wire_record. rewrite <- !app_assoc. simpl.
  unfold mret, outcome_ret. do 2 f_equal. lia.
Qed.

Lemma set_procs_prio_loop_spec n :
  forall done rest params (k : nat) packetIdx,
    packetIdx = Z.of_nat (length done) ->
    (4 * n <= length rest)%nat ->
    (k + n <= length (procs params))%nat ->
    packetIdx + 4 * Z.of_nat n <= INT_MAX ->
    Z.of_nat k + Z.of_nat n <= INT_MAX + 1 ->
    set_procs_prio_loop n (done ++ rest) params (Z.of_nat k) packetIdx =
      Returns ((done ++ flat_map wire_record (take n (drop k (procs params))))
                 ++ drop (4 * n) rest,
               packetIdx + 4 * Z.of_nat n).
Proof.
  induction n as [|n IH];
    intros done rest params k packetIdx Hidx Hrest Hk Hmax Hkmax.
  - simpl. rewrite app_nil_r, Z.add_0_r. reflexivity.
  - destruct rest as [|a [|b [|c [|d rest]]]]; [simpl in Hrest; lia ..|].
    destruct (lookup_lt_is_Some_2 (procs params) k ltac:(lia)) as [r Hr].
    assert (Hint : INT_MAX = 2147483647) by reflexivity.
    assert (Hmin : INT_MIN = -2147483648) by reflexivity.
    cbn [set_procs_prio_loop].
    rewrite (set_procs_prio_body_spec done a b c d rest params k r)
      by (try assumption; lia).
    rewrite bind_Returns.
    destruct (Z_lt_le_dec (Z.of_nat k) INT_MAX) as [Hki|Hki].
    + rewrite (incr_small (Z.of_nat k)) by lia.
      replace (Z.of_nat k + 1) with (Z.of_nat (S k)) by lia.
      rewrite IH;
        [ | rewrite length_app; simpl; lia | simpl in Hrest; lia | lia | lia
          | lia ].
      rewrite (drop_S _ _ _ Hr).
      replace (4 * S n)%nat with (S (S (S (S (4 * n))))) by lia.
      simpl. rewrite <- !app_assoc. simpl.
      do 2 f_equal. lia.
    + (* the array of records cannot be that long within the packet *)
      destruct n as [|n].
      * cbn [set_procs_prio_loop].
        rewrite (drop_S _ _ _ Hr). unfold wire_record. simpl.
        rewrite <- !app_assoc. simpl.
        unfold mret, outcome_ret. repeat f_equal; lia.
      * exfalso. lia.
Qed.

Lemma procs_assign_lookup params (k : nat) r set :
  procs params !! k = Some r ->
  procs_assign params (Z.of_nat k) set =
    Returns {| procs := <[k := set r]> (procs params) |}.
Proof.
  intros Hr. unfold procs_assign, procs_get.
  rewrite (array_get_lookup _ _ _ _ Hr). next_statement.
  pose proof (lookup_lt_Some _ _ _ Hr) as Hk.
  unfold array_set.
  rewrite (proj2 (Z.leb_le 0 _)) by lia.
  rewrite (proj2 (Z.ltb_lt _ _)) by lia.
  simpl. now rewrite Nat2Z.id.
Qed.

(** One turn of the decoding loop fills one record from four slots. *)
Lemma get_procs_prio_body_spec packet params (k pidx : nat) s1 s2 s3 s4 r :
  packet !! pidx = Some s1 ->
  packet !! (pidx + 1)%nat = Some s2 ->
  packet !! (pidx + 2)%nat = Some s3 ->
  packet !! (pidx + 3)%nat = Some s4 ->
  procs params !! k = Some r ->
  Z.of_nat pidx + 4 <= INT_MAX ->
  get_procs_prio_body packet params (Z.of_nat k) (Z.of_nat pidx) =
    Returns ({| procs := <[k := decode_record s1 s2 s3 s4]> (procs params) |},
             Z.of_nat pidx + 4).
Proof.
  intros H1 H2 H3 H4 Hr Hmax.
  assert (Hint : INT_MAX = 2147483647) by reflexivity.
  assert (Hmin : INT_MIN = -2147483648) by reflexivity.
  pose proof (lookup_lt_Some _ _ _ Hr) as Hk.
  unfold get_procs_prio_body, packet_get.
  rewrite (array_get_lookup _ _ _ _ H1). next_statement.
  rewrite (incr_small (Z.of_nat pidx)) by lia.
  rewrite (procs_assign_lookup _ _ _ _ Hr). next_statement.
  replace (Z.of_nat pidx + 1) with (Z.of_nat (pidx + 1)) by lia.
  rewrite (array_get_lookup _ _ _ _ H2). next_statement.
  rewrite (incr_small (Z.of_nat (pidx + 1))) by lia.
  rewrite (procs_assign_lookup _ k (set_pid (to_int32 (ntoh_slot s1)) r))
    by (simpl; now apply list_lookup_insert_eq).
  next_statement. simpl procs. rewrite list_insert_insert_eq.
  replace (Z.of_nat (pidx + 1) + 1) with (Z.of_nat (pidx + 2)) by lia.
  rewrite (array_get_lookup _ _ _ _ H3). next_statement.
  rewrite (incr_small (Z.of_nat (pidx + 2))) by lia.
  rewrite (procs_assign_lookup _ k
             (set_uid (to_uint32 (ntoh_slot s2)) (set_pid (to_int32 (ntoh_slot s1)) r)))
    by (simpl; now apply list_lookup_insert_eq).
  next_statement. simpl procs. rewrite list_insert_insert_eq.
  replace (Z.of_nat (pidx + 2) + 1) with (Z.of_nat (pidx + 3)) by lia.
  rewrite (array_get_lookup _ _ _ _ H4). next_statement.
  rewrite (incr_small (Z.of_nat (pidx + 3))) by lia.
  rewrite (procs_assign_lookup _ k
             (set_oomadj (to_int32 (ntoh_slot s3))
                (set_uid (to_uint32 (ntoh_slot s2))
                   (set_pid (to_int32 (ntoh_slot s1)) r))))
    by (simpl; now apply list_lookup_insert_eq).
  next_statement. simpl procs. rewrite list_insert_insert_eq.
  unfold mret, outcome_ret. do 2 f_equal. lia.
Qed.

Lemma get_procs_prio_loop_spec n :
  forall pre slots post rdone rrest,
    length slots = (4 * n)%nat ->
    (n <= length rrest)%nat ->
    Z.of_nat (length pre) + 4 * Z.of_nat n <= INT_MAX ->
    Z.of_nat (length rdone) + Z.of_nat n <= INT_MAX ->
    get_procs_prio_loop n (pre ++ slots ++ post) {| procs := rdone ++ rrest |}
        (Z.of_nat (length rdone)) (Z.of_nat (length pre)) =
      Returns ({| procs := (rdone ++ decode_records slots) ++ drop n rrest |},
               Z.of_nat (length pre) + 4 * Z.of_nat n).
Proof.
  induction n as [|n IH]; intros pre slots post rdone rrest Hslots Hrrest Hmax Hkmax.
  - destruct slots; [|simpl in Hslots; lia].
    simpl. rewrite app_nil_r, Z.add_0_r. reflexivity.
  - destruct slots as [|s1 [|s2 [|s3 [|s4 slots]]]]; [simpl in Hslots; lia ..|].
    destruct rrest as [|r rrest]; [simpl in Hrrest; lia|].
    assert (Hint : INT_MAX = 2147483647) by reflexivity.
    assert (Hmin : INT_MIN = -2147483648) by reflexivity.
    cbn [get_procs_prio_loop].
    rewrite (get_procs_prio_body_spec _ _ _ _ s1 s2 s3 s4 r); cycle 1.
    { now apply list_lookup_middle. }
    { rewrite lookup_app_r by lia.
      now replace (length pre + 1 - length pre)%nat with 1%nat by lia. }
    { rewrite lookup_app_r by lia.
      now replace (length pre + 2 - length pre)%nat with 2%nat by lia. }
    { rewrite lookup_app_r by lia.
      now replace (length pre + 3 - length pre)%nat with 3%nat by lia. }
    { simpl. now apply list_lookup_middle. }
    { lia. }
    next_statement. simpl procs.
    replace (length rdone) with (length rdone + 0)%nat at 1 by lia.
    rewrite insert_app_r. simpl.
    rewrite (incr_small (Z.of_nat (length rdone))) by lia.
    replace (rdone ++ decode_record s1 s2 s3 s4 :: rrest)
      with ((rdone ++ [decode_record s1 s2 s3 s4]) ++ rrest)
      by (now rewrite <- app_assoc).
    replace (pre ++ s1 :: s2 :: s3 :: s4 :: slots ++ post)
      with ((pre ++ [s1; s2; s3; s4]) ++ slots ++ post)
      by (now rewrite <- app_assoc).
    replace (Z.of_nat (length rdone) + 1)
      with (Z.of_nat (length (rdone ++ [decode_record s1 s2 s3 s4])))
      by (rewrite length_app; simpl; lia).
    replace (Z.of_nat (length pre) + 4)
      with (Z.of_nat (length (pre ++ [s1; s2; s3; s4])))
      by (rewrite length_app; simpl; lia).
    rewrite IH;
      [ | simpl in Hslots; lia | simpl in Hrrest; lia
        | rewrite length_app; simpl; lia | rewrite length_app; simpl; lia ].
    rewrite <- !app_assoc. simpl.
    do 2 f_equal. rewrite length_app. simpl. lia.
Qed.

(** What was written as records is read back as the same records. *)
Lemma decode_wire_records rs :
  Forall procprio_typed rs ->
  decode_records (flat_map wire_record rs) = rs.
Proof.
  induction 1 as [|r rs (Hpid & Huid & Hadj & Htype) _ IH]; [reflexivity|].
  simpl. rewrite IH. f_equal.
  unfold decode_record.
  rewrite (slot_roundtrip_int _ Hpid), (slot_roundtrip_uint _ Huid),
    (slot_roundtrip_int _ Hadj), (slot_roundtrip_enum _ Htype).
  now destruct r.
Qed.

Lemma length_wire_records rs :
  length (flat_map wire_record rs) = (4 * length rs)%nat.
Proof. induction rs as [|r rs IH]; simpl; [reflexivity|]. rewrite IH. lia. Qed.

Lemma length_wire_targets ts :
  length (flat_map wire_target ts) = (2 * length ts)%nat.
Proof. induction ts as [|t ts IH]; simpl; [reflexivity|]. rewrite IH. lia. Qed.

(** Target [i] sits in payload slots [2i] and [2i+1]. *)
Lemma lookup_wire_targets ts :
  forall (i : nat) t,
    ts !! i = Some t ->
    flat_map wire_target ts !! (2 * i)%nat = Some (hton_slot (minfree t)) /\
    flat_map wire_target ts !! (2 * i + 1)%nat = Some (hton_slot (oom_adj_score t)).
Proof.
  induction ts as [|t0 ts IH]; intros i t Hi; [discriminate Hi|].
  destruct i as [|i].
  - injection Hi as ->. split; reflexivity.
  - simpl in Hi. destruct (IH i t Hi) as [H1 H2].
    replace (2 * S i)%nat with (S (S (2 * i))) by lia.
    split; simpl; assumption.
Qed.

(** ** The encoders write their wire image *)

Lemma length_wire_target_call targets target_cnt :
  (target_cnt <= length targets)%nat ->
  length (wire (SetTarget targets target_cnt)) = S (2 * target_cnt).
Proof.
  intros H. unfold wire. simpl.
  now rewrite length_wire_targets, length_take_le.
Qed.

Lemma length_wire_procs_call params procs_count :
  (Z.to_nat procs_count <= length (procs params))%nat ->
  length (wire (SetProcsPrio params procs_count)) = S (4 * Z.to_nat procs_count).
Proof.
  intros H. unfold wire. simpl.
  now rewrite length_wire_records, length_take_le.
Qed.

Lemma set_target_wire packet targets target_cnt :
  (target_cnt <= length targets)%nat ->
  (2 * target_cnt < length packet)%nat ->
  Z.of_nat (length packet) <= 2 ^ 30 ->
  lmkd_pack_set_target packet targets target_cnt =
    Returns (overwrite (wire (SetTarget targets target_cnt)) packet,
             sizeof_int * Z.of_nat (length (wire (SetTarget targets target_cnt)))).
Proof.
  intros Htg Hlen Hmax.
  assert (Hint : INT_MAX = 2147483647) by reflexivity.
  assert (Hpow : 2 ^ 30 = 1073741824) by reflexivity.
  destruct packet as [|s0 rest]; [simpl in Hlen; lia|].
  simpl in Hlen, Hmax.
  unfold lmkd_pack_set_target, packet_set.
  rewrite (array_set_app _ [] s0 rest 0) by reflexivity.
  next_statement. change (incr 0) with (Z.of_nat (length ([] ++ [hton_slot 0]))).
  rewrite set_target_loop_spec; [ | reflexivity | lia | lia | simpl; lia ].
  next_statement. unfold mret, outcome_ret.
  rewrite length_wire_target_call by exact Htg.
  rewrite times_sizeof_int_small by (simpl; lia).
  unfold overwrite, wire.
  simpl. rewrite length_wire_targets, length_take_le by exact Htg.
  do 2 f_equal. unfold sizeof_int. lia.
Qed.

Lemma set_procs_prio_wire packet params procs_count :
  (Z.to_nat procs_count <= length (procs params))%nat ->
  (4 * Z.to_nat procs_count < length packet)%nat ->
  Z.of_nat (length packet) <= 2 ^ 30 ->
  lmkd_pack_set_procs_prio packet params procs_count =
    Returns (overwrite (wire (SetProcsPrio params procs_count)) packet,
             sizeof_int * Z.of_nat (length (wire (SetProcsPrio params procs_count)))).
Proof.
  intros Hn Hlen Hmax.
  assert (Hint : INT_MAX = 2147483647) by reflexivity.
  assert (Hpow : 2 ^ 30 = 1073741824) by reflexivity.
  destruct packet as [|s0 rest]; [simpl in Hlen; lia|].
  simpl in Hlen, Hmax.
  unfold lmkd_pack_set_procs_prio, packet_set.
  rewrite (array_set_app _ [] s0 rest 0) by reflexivity.
  next_statement.
  change 1 with (Z.of_nat (length ([] ++ [hton_slot 11]))) at 1.
  change 0 with (Z.of_nat 0) at 1.
  rewrite set_procs_prio_loop_spec; [ | reflexivity | lia | lia | simpl; lia | lia ].
  next_statement. unfold mret, outcome_ret.
  rewrite length_wire_procs_call by exact Hn.
  rewrite times_sizeof_int_small by (simpl; lia).
  unfold overwrite, wire.
  simpl. rewrite length_wire_records, length_take_le by exact Hn.
  do 2 f_equal. unfold sizeof_int. lia.
Qed.

(** Within the structural limits every encoder overwrites the first slots
    of the packet with its wire image, leaves the others as they were, and
    returns four times the number of slots it wrote. *)
Lemma encode_wire c packet :
  encode_within_limits c ->
  is_ctrl_packet packet ->
  encode c packet =
    Returns (overwrite (wire c) packet, sizeof_int * Z.of_nat (length (wire c))).
Proof.
  intros Hc Hp.
  assert (Hlen : length packet = 13%nat).
  { apply Nat2Z.inj. exact Hp. }
  destruct c; simpl in Hc;
    try (destruct (ctrl_packet_slots _ Hp)
           as (s0 & s1 & s2 & s3 & s4 & s5 & s6 & s7 & s8 & s9 & s10 & s11 & s12 & ->);
         unfold encode, lmkd_pack_set_procprio, lmkd_pack_set_procremove,
           lmkd_pack_set_procpurge, lmkd_pack_set_getkillcnt,
           lmkd_pack_set_getkillcnt_repl, lmkd_pack_set_subscribe,
           lmkd_pack_set_prockills, lmkd_pack_set_update_props,
           lmkd_pack_start_monitoring, lmkd_pack_set_update_props_repl,
           lmkd_pack_set_boot_completed_notif,
           lmkd_pack_set_boot_completed_notif_repl;
         rewrite ?to_size_t_sizeof_int, ?times_sizeof_int_slots by lia;
         reflexivity).
  - destruct Hc as [Hcnt Htg]. change MAX_TARGETS with 6 in Hcnt.
    apply set_target_wire; [exact Htg | lia | rewrite Hlen; simpl; lia].
  - destruct Hc as [Hcnt Hparams].
    change PROCS_PRIO_MAX_RECORD_COUNT with 3 in Hcnt.
    assert (Hrec : length (procs params) = 3%nat).
    { apply Nat2Z.inj. exact Hparams. }
    apply set_procs_prio_wire; [lia | lia | rewrite Hlen; simpl; lia].
Qed.

(** ** The field-count check of the batch decoder *)

(** The test of the [if] that guards the batch decoder. *)
Lemma field_count_check field_count :
  (field_count <? LMK_PROCPRIO_FIELD_COUNT)
    || negb (Z.rem field_count LMK_PROCPRIO_FIELD_COUNT =? 0) = true
  <-> field_count < 4 \/ field_count mod 4 <> 0.
Proof.
  change LMK_PROCPRIO_FIELD_COUNT with 4.
  rewrite orb_true_iff, negb_true_iff, Z.ltb_lt, Z.eqb_neq.
  destruct (Z_lt_le_dec field_count 4) as [Hlt|Hge]; [tauto|].
  rewrite Z.rem_mod_nonneg by lia. tauto.
Qed.

Lemma get_procs_prio_rejects packet params field_count :
  field_count < 4 \/ field_count mod 4 <> 0 ->
  lmkd_pack_get_procs_prio packet params field_count = Returns (params, -1).
Proof.
  intros H. apply field_count_check in H.
  unfold lmkd_pack_get_procs_prio. now rewrite H.
Qed.

Lemma get_procs_prio_accepts packet params field_count :
  ~ (field_count < 4 \/ field_count mod 4 <> 0) ->
  lmkd_pack_get_procs_prio packet params field_count =
    ('(params, _) ←
       get_procs_prio_loop (Z.to_nat (Z.quot field_count 4)) packet params 0 1;
     mret (params, Z.quot field_count 4)).
Proof.
  intros H. rewrite <- field_count_check in H.
  apply not_true_is_false in H.
  unfold lmkd_pack_get_procs_prio. now rewrite H.
Qed.

(** A result of [-1] comes from the check and from nowhere else. *)
Lemma get_procs_prio_minus_one packet params field_count params' :
  lmkd_pack_get_procs_prio packet params field_count = Returns (params', -1) ->
  (field_count < 4 \/ field_count mod 4 <> 0) /\ params' = params.
Proof.
  intros H.
  destruct (Z_lt_le_dec field_count 4) as [Hlt|Hge].
  { rewrite get_procs_prio_rejects in H by tauto. injection H as <-. tauto. }
  destruct (Z.eq_dec (field_count mod 4) 0) as [Hmod|Hmod].
  2: { rewrite get_procs_prio_rejects in H by tauto. injection H as <-. tauto. }
  exfalso.
  rewrite get_procs_prio_accepts in H by lia.
  apply bind_Returns_inv in H as ([p i] & _ & H).
  injection H as _ H.
  rewrite Z.quot_div_nonneg in H by lia.
  pose proof (Z.div_pos field_count 4). 
  assert (1 <= field_count / 4) by (apply Z.div_le_lower_bound; lia).
  lia.
Qed.

(** The batch decoder on memory that holds what it touches: the records
    are read from slot 1 on, four slots each. *)
Lemma get_procs_prio_decodes packet params field_count :
  4 <= field_count <= INT_MAX ->
  field_count mod 4 = 0 ->
  field_count < Z.of_nat (length packet) ->
  field_count / 4 <= Z.of_nat (length (procs params)) ->
  lmkd_pack_get_procs_prio packet params field_count =
    Returns ({| procs := decode_records (take (Z.to_nat field_count) (drop 1 packet))
                           ++ drop (Z.to_nat (field_count / 4)) (procs params) |},
             field_count / 4).
Proof.
  intros Hfc Hmod Hlen Hrec.
  assert (Hint : INT_MAX = 2147483647) by reflexivity.
  rewrite get_procs_prio_accepts by lia.
  rewrite Z.quot_div_nonneg by lia.
  pose proof (Z.div_mod field_count 4 ltac:(lia)) as Hdiv.
  set (n := Z.to_nat (field_count / 4)).
  assert (Hn : Z.of_nat n = field_count / 4) by (unfold n; lia).
  destruct packet as [|s0 rest]; [simpl in Hlen; lia|].
  simpl in Hlen. simpl drop.
  rewrite <- (take_drop (Z.to_nat field_count) rest).
  destruct params as [l]. simpl in Hrec. simpl procs.
  change (s0 :: take (Z.to_nat field_count) rest ++ drop (Z.to_nat field_count) rest)
    with ([s0] ++ take (Z.to_nat field_count) rest ++ drop (Z.to_nat field_count) rest).
  change l with ([] ++ l) at 1.
  change 0 with (Z.of_nat (length (@nil lmk_procprio))) at 1.
  change 1 with (Z.of_nat (length [s0])) at 1.
  rewrite get_procs_prio_loop_spec;
    [ | rewrite length_take_le by lia; lia | lia | simpl; lia | simpl; lia ].
  next_statement. rewrite take_drop. reflexivity.
Qed.

(** ** The decoders read their slots *)

Lemma packet_get_lookup packet (i : nat) idx s :
  idx = Z.of_nat i -> packet !! i = Some s -> packet_get packet idx = Returns s.
Proof. intros -> H. now apply array_get_lookup. Qed.

Lemma get_cmd_slot packet s :
  packet !! 0%nat = Some s ->
  lmkd_pack_get_cmd packet = Returns (to_uint32 (ntoh_slot s)).
Proof.
  intros H. unfold lmkd_pack_get_cmd.
  now rewrite (packet_get_lookup packet 0 0 s).
Qed.

Lemma get_target_slots packet (i : nat) target s1 s2 :
  Z.of_nat i * 2 + 2 <= INT_MAX ->
  packet !! (2 * i + 1)%nat = Some s1 ->
  packet !! (2 * i + 2)%nat = Some s2 ->
  lmkd_pack_get_target packet (Z.of_nat i) target =
    Returns {| minfree := to_int32 (ntoh_slot s1);
               oom_adj_score := to_int32 (ntoh_slot s2) |}.
Proof.
  intros Hi H1 H2. unfold lmkd_pack_get_target.
  assert (Hint : INT_MAX = 2147483647) by reflexivity.
  assert (Hmin : INT_MIN = -2147483648) by reflexivity.
  rewrite (to_int32_id (Z.of_nat i * 2 + 1)), (to_int32_id (Z.of_nat i * 2 + 2))
    by (unfold is_int; lia).
  rewrite (packet_get_lookup packet (2 * i + 1) (Z.of_nat i * 2 + 1) s1 ltac:(lia) H1).
  next_statement.
  rewrite (packet_get_lookup packet (2 * i + 2) (Z.of_nat i * 2 + 2) s2 ltac:(lia) H2).
  reflexivity.
Qed.

Lemma get_procprio_slots_old packet field_count params s1 s2 s3 :
  field_count <= 3 ->
  packet !! 1%nat = Some s1 -> packet !! 2%nat = Some s2 ->
  packet !! 3%nat = Some s3 ->
  lmkd_pack_get_procprio packet field_count params =
    Returns {| pid := to_int32 (ntoh_slot s1);
               uid := to_uint32 (ntoh_slot s2);
               oomadj := to_int32 (ntoh_slot s3);
               ptype := PROC_TYPE_APP |}.
Proof.
  intros Hfc H1 H2 H3. unfold lmkd_pack_get_procprio.
  rewrite (packet_get_lookup packet 1 1 s1), (packet_get_lookup packet 2 2 s2),
    (packet_get_lookup packet 3 3 s3) by (reflexivity || assumption).
  rewrite (proj2 (Z.ltb_ge 3 field_count)) by lia.
  reflexivity.
Qed.

Lemma get_procprio_slots_new packet field_count params s1 s2 s3 s4 :
  3 < field_count ->
  packet !! 1%nat = Some s1 -> packet !! 2%nat = Some s2 ->
  packet !! 3%nat = Some s3 -> packet !! 4%nat = Some s4 ->
  lmkd_pack_get_procprio packet field_count params =
    Returns (decode_record s1 s2 s3 s4).
Proof.
  intros Hfc H1 H2 H3 H4. unfold lmkd_pack_get_procprio.
  rewrite (packet_get_lookup packet 1 1 s1), (packet_get_lookup packet 2 2 s2),
    (packet_get_lookup packet 3 3 s3), (packet_get_lookup packet 4 4 s4)
    by (reflexivity || assumption).
  rewrite (proj2 (Z.ltb_lt 3 field_count)) by lia.
  reflexivity.
Qed.

Lemma get_procremove_slots packet params s :
  packet !! 1%nat = Some s ->
  lmkd_pack_get_procremove packet params =
    Returns {| procremove_pid := to_int32 (ntoh_slot s) |}.
Proof.
  intros H. unfold lmkd_pack_get_procremove.
  now rewrite (packet_get_lookup packet 1 1 s).
Qed.

Lemma get_getkillcnt_slots packet params s1 s2 :
  packet !! 1%nat = Some s1 -> packet !! 2%nat = Some s2 ->
  lmkd_pack_get_getkillcnt packet params =
    Returns {| min_oomadj := to_int32 (ntoh_slot s1);
               max_oomadj := to_int32 (ntoh_slot s2) |}.
Proof.
  intros H1 H2. unfold lmkd_pack_get_getkillcnt.
  now rewrite (packet_get_lookup packet 1 1 s1), (packet_get_lookup packet 2 2 s2).
Qed.

Lemma get_subscribe_slots packet params s :
  packet !! 1%nat = Some s ->
  lmkd_pack_get_subscribe packet params =
    Returns {| evt_type := to_uint32 (ntoh_slot s) |}.
Proof.
  intros H. unfold lmkd_pack_get_subscribe.
  now rewrite (packet_get_lookup packet 1 1 s).
Qed.

Lemma get_update_props_repl_slots packet params s :
  packet !! 1%nat = Some s ->
  lmkd_pack_get_update_props_repl packet params =
    Returns {| update_props_result := to_int32 (ntoh_slot s) |}.
Proof.
  intros H. unfold lmkd_pack_get_update_props_repl.
  now rewrite (packet_get_lookup packet 1 1 s).
Qed.

Lemma get_boot_completed_notif_repl_slots packet params s :
  packet !! 1%nat = Some s ->
  lmkd_pack_get_boot_completed_notif_repl packet params =
    Returns {| boot_completed_result := to_int32 (ntoh_slot s) |}.
Proof.
  intros H. unfold lmkd_pack_get_boot_completed_notif_repl.
  now rewrite (packet_get_lookup packet 1 1 s).
Qed.

Lemma encode_decodes_back {A} c packet (dec : list Z -> outcome A) v :
  encode_within_limits c -> is_ctrl_packet packet ->
  dec (overwrite (wire c) packet) = Returns v ->
  decodes_back (encode c packet) dec v.
Proof.
  intros Hc Hp Hdec. unfold decodes_back.
  rewrite (encode_wire c packet Hc Hp). eauto.
Qed.

Lemma lookup_overwrite_target targets target_cnt packet (i : nat) t :
  take target_cnt targets !! i = Some t ->
  overwrite (wire (SetTarget targets target_cnt)) packet !! (2 * i + 1)%nat
    = Some (hton_slot (minfree t))
  /\ overwrite (wire (SetTarget targets target_cnt)) packet !! (2 * i + 2)%nat
    = Some (hton_slot (oom_adj_score t)).
Proof.
  intros Hi. unfold overwrite, wire.
  rewrite <- app_comm_cons. cbn [wire_payload].
  destruct (lookup_wire_targets _ _ _ Hi) as [H1 H2].
  replace (2 * i + 1)%nat with (S (2 * i)) by lia.
  replace (2 * i + 2)%nat with (S (2 * i + 1)) by lia.
  split; simpl; now apply lookup_app_l_Some.
Qed.

(** ** Slot 0 *)

Lemma packet_set_cmd packet v packet' :
  packet_set packet 0 v = Returns packet' -> packet' !! 0%nat = Some v.
Proof.
  intros H. apply array_set_Returns in H as [Hlen ->].
  apply list_lookup_insert_eq. simpl. lia.
Qed.

Lemma packet_set_keeps_cmd packet idx v packet' c :
  packet_set packet idx v = Returns packet' ->
  0 < idx -> packet !! 0%nat = Some c -> packet' !! 0%nat = Some c.
Proof.
  intros H Hidx Hc. apply array_set_Returns in H as [Hlen ->].
  rewrite list_lookup_insert_ne by lia. exact Hc.
Qed.

Lemma past_cmd_incr idx : 0 <= idx -> past_cmd idx -> past_cmd (incr idx).
Proof.
  intros H0 [H|H]; [|unfold INT_MIN in H; lia].
  destruct (Z.eq_dec idx INT_MAX) as [->|Hne].
  - right. reflexivity.
  - left. rewrite incr_small by (unfold INT_MIN; lia). lia.
Qed.

Lemma packet_set_past_cmd packet idx v packet' c :
  packet_set packet idx v = Returns packet' ->
  past_cmd idx -> packet !! 0%nat = Some c ->
  packet' !! 0%nat = Some c /\ past_cmd (incr idx).
Proof.
  intros H Hidx Hc.
  pose proof (array_set_Returns _ _ _ _ _ H) as [Hlen _].
  assert (0 < idx) by (destruct Hidx as [?|?]; unfold INT_MIN in *; lia).
  split.
  - now apply (packet_set_keeps_cmd packet idx v).
  - apply past_cmd_incr; [lia | exact Hidx].
Qed.

Lemma set_target_loop_keeps_cmd target_cnt :
  forall packet targets idx packet' idx' c,
    set_target_loop target_cnt packet targets idx = Returns (packet', idx') ->
    past_cmd idx -> packet !! 0%nat = Some c -> packet' !! 0%nat = Some c.
Proof.
  induction target_cnt as [|cnt IH]; intros packet targets idx packet' idx' c H Hidx Hc.
  - injection H as <- _. exact Hc.
  - destruct targets as [|t targets]; [discriminate H|].
    cbn [set_target_loop] in H.
    apply bind_Returns_inv in H as (p1 & Hs1 & H).
    destruct (packet_set_past_cmd _ _ _ _ _ Hs1 Hidx Hc) as [Hc1 Hidx1].
    apply bind_Returns_inv in H as (p2 & Hs2 & H).
    destruct (packet_set_past_cmd _ _ _ _ _ Hs2 Hidx1 Hc1) as [Hc2 Hidx2].
    exact (IH _ _ _ _ _ _ H Hidx2 Hc2).
Qed.

Lemma set_procs_prio_loop_keeps_cmd n :
  forall packet params i packetIdx packet' packetIdx' c,
    set_procs_prio_loop n packet params i packetIdx = Returns (packet', packetIdx') ->
    past_cmd packetIdx -> packet !! 0%nat = Some c -> packet' !! 0%nat = Some c.
Proof.
  induction n as [|n IH];
    intros packet params i packetIdx packet' packetIdx' c H Hidx Hc.
  - injection H as <- _. exact Hc.
  - cbn [set_procs_prio_loop] in H.
    apply bind_Returns_inv in H as ([p idx] & Hbody & H).
    unfold set_procs_prio_body in Hbody.
    apply bind_Returns_inv in Hbody as (r1 & _ & Hbody).
    apply bind_Returns_inv in Hbody as (p1 & Hs1 & Hbody).
    destruct (packet_set_past_cmd _ _ _ _ _ Hs1 Hidx Hc) as [Hc1 Hidx1].
    apply bind_Returns_inv in Hbody as (r2 & _ & Hbody).
    apply bind_Returns_inv in Hbody as (p2 & Hs2 & Hbody).
    destruct (packet_set_past_cmd _ _ _ _ _ Hs2 Hidx1 Hc1) as [Hc2 Hidx2].
    apply bind_Returns_inv in Hbody as (r3 & _ & Hbody).
    apply bind_Returns_inv in Hbody as (p3 & Hs3 & Hbody).
    destruct (packet_set_past_cmd _ _ _ _ _ Hs3 Hidx2 Hc2) as [Hc3 Hidx3].
    apply bind_Returns_inv in Hbody as (r4 & _ & Hbody).
    apply bind_Returns_inv in Hbody as (p4 & Hs4 & Hbody).
    destruct (packet_set_past_cmd _ _ _ _ _ Hs4 Hidx3 Hc3) as [Hc4 Hidx4].
    injection Hbody as <- <-.
    exact (IH _ _ _ _ _ _ _ H Hidx4 Hc4).
Qed.

(** Follows the command slot through the writes of an encoder. *)
Ltac follow_cmd H Hc :=
  repeat
    lazymatch type of H with
    | (packet_set _ _ _ ≫= _) = Returns _ =>
        let p := fresh "p" in
        let Hs := fresh "Hs" in
        let Hc' := fresh "Hc" in
        apply bind_Returns_inv in H as (p & Hs & H);
        pose proof (packet_set_keeps_cmd _ _ _ _ _ Hs ltac:(lia) Hc) as Hc';
        clear Hc Hs; rename Hc' into Hc
    end.

(** Whatever memory an encoder is given, if it returns then slot 0 of the
    packet holds its command in network byte order. *)
Lemma encode_cmd_slot c packet packet' size :
  encode c packet = Returns (packet', size) ->
  packet' !! 0%nat = Some (hton_slot (lmk_cmd_value (encode_cmd c))).
Proof.
  intros H.
  destruct c; cbn [encode encode_cmd] in *;
    unfold lmkd_pack_set_target, lmkd_pack_set_procprio, lmkd_pack_set_procremove,
      lmkd_pack_set_procpurge, lmkd_pack_set_getkillcnt,
      lmkd_pack_set_getkillcnt_repl, lmkd_pack_set_subscribe,
      lmkd_pack_set_prockills, lmkd_pack_set_update_props,
      lmkd_pack_start_monitoring, lmkd_pack_set_update_props_repl,
      lmkd_pack_set_boot_completed_notif,
      lmkd_pack_set_boot_completed_notif_repl, lmkd_pack_set_procs_prio in H;
    cbv zeta in H;
    apply bind_Returns_inv in H as (p0 & Hs0 & H);
    apply packet_set_cmd in Hs0;
    follow_cmd H Hs0;
    try (injection H as <- _; exact Hs0).
  - apply bind_Returns_inv in H as ([p idx] & Hloop & H).
    injection H as <- _.
    apply (set_target_loop_keeps_cmd _ _ _ _ _ _ _ Hloop); [|exact Hs0].
    left. change (incr 0) with 1. unfold INT_MAX. lia.
  - apply bind_Returns_inv in H as ([p idx] & Hloop & H).
    injection H as <- _.
    apply (set_procs_prio_loop_keeps_cmd _ _ _ _ _ _ _ _ Hloop); [|exact Hs0].
    left. unfold INT_MAX. lia.
Qed.

Lemma lmk_cmd_value_range c : is_uint (lmk_cmd_value c).
Proof. destruct c; split; discriminate. Qed.

Lemma get_cmd_hton packet v :
  (0 < length packet)%nat -> is_uint v ->
  lmkd_pack_get_cmd (<[0%nat := hton_slot v]> packet) = Returns v.
Proof.
  intros Hlen Hv.
  rewrite (get_cmd_slot _ (hton_slot v)) by now apply list_lookup_insert_eq.
  now rewrite (slot_roundtrip_uint _ Hv).
Qed.

(** The command of an encoded packet is read back. *)
Lemma get_cmd_encode c packet packet' size :
  encode c packet = Returns (packet', size) ->
  lmkd_pack_get_cmd packet' = Returns (lmk_cmd_value (encode_cmd c)).
Proof.
  intros H. apply encode_cmd_slot in H.
  rewrite (get_cmd_slot _ _ H).
  now rewrite (slot_roundtrip_uint _ (lmk_cmd_value_range _)).
Qed.



(** ** The batch decoder past the end of its arrays *)

(** After three turns on a control packet the fourth turn of the
    decoding loop reads [packet[13]]. *)
Lemma get_procs_prio_loop_overruns_packet m packet params :
  is_ctrl_packet packet -> is_procs_prio params ->
  get_procs_prio_loop (S (S (S (S m)))) packet params 0 1 =
    Undefined (PacketOutOfBounds 13).
Proof.
  intros Hp Hparams.
  destruct (ctrl_packet_slots _ Hp)
    as (s0 & s1 & s2 & s3 & s4 & s5 & s6 & s7 & s8 & s9 & s10 & s11 & s12 & ->).
  destruct (procs_prio_records _ Hparams) as (r0 & r1 & r2 & ->).
  reflexivity.
Qed.

(** With a packet buffer long enough for a fourth record, the fourth turn
    writes [params->procs[3]]. *)
Lemma get_procs_prio_loop_overruns_procs m packet params :
  (16 < length packet)%nat -> is_procs_prio params ->
  get_procs_prio_loop (S (S (S (S m)))) packet params 0 1 =
    Undefined (ProcsOutOfBounds 3).
Proof.
  intros Hp Hparams.
  do 17 (destruct packet as [|? packet]; [simpl in Hp; lia|]).
  destruct (procs_prio_records _ Hparams) as (r0 & r1 & r2 & ->).
  reflexivity.
Qed.

(** ** Properties of the protocol *)

(** C1. The batch decoder [lmkd_pack_get_procs_prio] returns -1
    (InvalidFieldCount) exactly when the declared field count is below 4
    or not a multiple of 4.  It does so for the counts 0, 1, 2, 3, 5, 6
    and 7; for the counts 4, 8 and 12, on a control packet and a
    [struct lmk_procs_prio], it returns the record counts 1, 2 and 3. *)
Theorem get_procs_prio_field_count_validation packet params field_count :
  ((exists params',
       lmkd_pack_get_procs_prio packet params field_count = Returns (params', -1))
     <-> field_count < 4 \/ field_count mod 4 <> 0)
  /\ (In field_count [0; 1; 2; 3; 5; 6; 7] ->
      lmkd_pack_get_procs_prio packet params field_count = Returns (params, -1))
  /\ (In field_count [4; 8; 12] ->
      is_ctrl_packet packet -> is_procs_prio params ->
      exists params',
        lmkd_pack_get_procs_prio packet params field_count =
          Returns (params', field_count / 4)
        /\ In (field_count, field_count / 4) [(4, 1); (8, 2); (12, 3)]).
Proof.
  split; [|split].
  - split.
    + intros [params' H]. now apply get_procs_prio_minus_one in H.
    + intros H. exists params. now apply get_procs_prio_rejects.
  - intros Hin. apply get_procs_prio_rejects.
    simpl in Hin.
    destruct Hin as [<-|[<-|[<-|[<-|[<-|[<-|[<-|[]]]]]]]];
      first [ left; reflexivity | right; discriminate ].
  - intros Hin Hp Hparams.
    assert (Hlen : length packet = 13%nat) by (apply Nat2Z.inj; exact Hp).
    assert (Hrec : length (procs params) = 3%nat) by (apply Nat2Z.inj; exact Hparams).
    eexists. split.
    + apply get_procs_prio_decodes; rewrite ?Hlen, ?Hrec; simpl in Hin;
        destruct Hin as [<-|[<-|[<-|[]]]]; try reflexivity; try discriminate;
        split; discriminate.
    + simpl in Hin. destruct Hin as [<-|[<-|[<-|[]]]]; simpl; tauto.
Qed.

(** C2. Decoding an encoded packet gives back the payload.  For at most
    6 targets and every index below their number, [lmkd_pack_get_target]
    after [lmkd_pack_set_target] returns that target; [lmkd_pack_get_procprio]
    with a field count of 4 after [lmkd_pack_set_procprio] returns the same
    struct; and so do the decoders of the ProcRemove, GetKillCnt and
    Subscribe packets and of the two replies.  The payloads hold values of
    their C types. *)
Theorem decode_encode_roundtrip packet targets (i : nat) t target p params
    pr pr_out gk gk_out ev sub_out result up_out boot_out :
  is_ctrl_packet packet ->
  Z.of_nat (length targets) <= MAX_TARGETS ->
  targets !! i = Some t -> target_typed t ->
  procprio_typed p ->
  is_int (procremove_pid pr) ->
  getkillcnt_typed gk ->
  is_uint ev ->
  is_int result ->
  decodes_back (lmkd_pack_set_target packet targets (length targets))
    (fun packet' => lmkd_pack_get_target packet' (Z.of_nat i) target) t
  /\ decodes_back (lmkd_pack_set_procprio packet p)
       (fun packet' => lmkd_pack_get_procprio packet' 4 params) p
  /\ decodes_back (lmkd_pack_set_procremove packet pr)
       (fun packet' => lmkd_pack_get_procremove packet' pr_out) pr
  /\ decodes_back (lmkd_pack_set_getkillcnt packet gk)
       (fun packet' => lmkd_pack_get_getkillcnt packet' gk_out) gk
  /\ decodes_back (lmkd_pack_set_subscribe packet ev)
       (fun packet' => lmkd_pack_get_subscribe packet' sub_out) {| evt_type := ev |}
  /\ decodes_back (lmkd_pack_set_update_props_repl packet result)
       (fun packet' => lmkd_pack_get_update_props_repl packet' up_out)
       {| update_props_result := result |}
  /\ decodes_back (lmkd_pack_set_boot_completed_notif_repl packet result)
       (fun packet' => lmkd_pack_get_boot_completed_notif_repl packet' boot_out)
       {| boot_completed_result := result |}.
Proof.
  intros Hp Hcnt Hi [Hfree Hscore] (Hpid & Huid & Hadj & Htype) Hprpid
    [Hmin Hmax] Hev Hres.
  assert (Hint : INT_MAX = 2147483647) by reflexivity.
  change MAX_TARGETS with 6 in Hcnt.
  pose proof (lookup_lt_Some _ _ _ Hi) as Hlt.
  repeat split.
  - apply (encode_decodes_back (SetTarget targets (length targets)));
      [simpl; change MAX_TARGETS with 6; lia | exact Hp |].
    destruct (lookup_overwrite_target targets (length targets) packet i t) as [H1 H2].
    { now rewrite firstn_all. }
    rewrite (get_target_slots _ i target _ _ ltac:(lia) H1 H2).
    rewrite (slot_roundtrip_int _ Hfree), (slot_roundtrip_int _ Hscore).
    now destruct t.
  - apply (encode_decodes_back (SetProcprio p)); [exact I | exact Hp |].
    rewrite (get_procprio_slots_new _ 4 params
               (hton_slot (pid p)) (hton_slot (uid p)) (hton_slot (oomadj p))
               (hton_slot (to_int32 (ptype p))))
      by (reflexivity || lia).
    unfold decode_record.
    rewrite (slot_roundtrip_int _ Hpid), (slot_roundtrip_uint _ Huid),
      (slot_roundtrip_int _ Hadj), (slot_roundtrip_enum _ Htype).
    now destruct p.
  - apply (encode_decodes_back (SetProcremove pr)); [exact I | exact Hp |].
    rewrite (get_procremove_slots _ pr_out (hton_slot (procremove_pid pr)))
      by reflexivity.
    rewrite (slot_roundtrip_int _ Hprpid). now destruct pr.
  - apply (encode_decodes_back (SetGetkillcnt gk)); [exact I | exact Hp |].
    rewrite (get_getkillcnt_slots _ gk_out
               (hton_slot (min_oomadj gk)) (hton_slot (max_oomadj gk)))
      by reflexivity.
    rewrite (slot_roundtrip_int _ Hmin), (slot_roundtrip_int _ Hmax).
    now destruct gk.
  - apply (encode_decodes_back (SetSubscribe ev)); [exact I | exact Hp |].
    rewrite (get_subscribe_slots _ sub_out (hton_slot (to_int32 ev)))
      by reflexivity.
    now rewrite (slot_roundtrip_enum _ Hev).
  - apply (encode_decodes_back (SetUpdatePropsRepl result)); [exact I | exact Hp |].
    rewrite (get_update_props_repl_slots _ up_out (hton_slot result))
      by reflexivity.
    now rewrite (slot_roundtrip_int _ Hres).
  - apply (encode_decodes_back (SetBootCompletedNotifRepl result));
      [exact I | exact Hp |].
    rewrite (get_boot_completed_notif_repl_slots _ boot_out (hton_slot result))
      by reflexivity.
    now rewrite (slot_roundtrip_int _ Hres).
Qed.

(** C3. A batch of [n] records, [1 <= n <= 3], is encoded by
    [lmkd_pack_set_procs_prio] in [(4n+1)*4] bytes; decoding that packet
    with a field count of [4n] succeeds, returns [n], and fills the first
    [n] records of the output with the records that were encoded (the
    other records of the output stay).  For 2 records: 36 bytes, decoded
    with a field count of 8 to the same 2 records. *)
Theorem procs_prio_batch_roundtrip packet params out n :
  is_ctrl_packet packet -> is_procs_prio params -> is_procs_prio out ->
  1 <= n <= 3 ->
  Forall procprio_typed (take (Z.to_nat n) (procs params)) ->
  exists packet' out',
    lmkd_pack_set_procs_prio packet params n = Returns (packet', (4 * n + 1) * 4)
    /\ lmkd_pack_get_procs_prio packet' out (4 * n) = Returns (out', n)
    /\ take (Z.to_nat n) (procs out') = take (Z.to_nat n) (procs params)
    /\ drop (Z.to_nat n) (procs out') = drop (Z.to_nat n) (procs out).
Proof.
  intros Hp Hparams Hout Hn Htyped.
  assert (Hlen : length packet = 13%nat) by (apply Nat2Z.inj; exact Hp).
  assert (Hrec : length (procs params) = 3%nat) by (apply Nat2Z.inj; exact Hparams).
  assert (Hrec' : length (procs out) = 3%nat) by (apply Nat2Z.inj; exact Hout).
  assert (Hint : INT_MAX = 2147483647) by reflexivity.
  set (rs := take (Z.to_nat n) (procs params)) in *.
  assert (Hrs : length rs = Z.to_nat n) by (unfold rs; rewrite length_take_le; lia).
  exists (overwrite (wire (SetProcsPrio params n)) packet).
  exists {| procs := rs ++ drop (Z.to_nat n) (procs out) |}.
  split; [|split; [|split]].
  - change (lmkd_pack_set_procs_prio packet params n)
      with (encode (SetProcsPrio params n) packet).
    rewrite encode_wire
      by (try split; try assumption; change PROCS_PRIO_MAX_RECORD_COUNT with 3; lia).
    rewrite length_wire_procs_call by lia.
    do 2 f_equal. unfold sizeof_int. lia.
  - rewrite get_procs_prio_decodes.
    + replace (4 * n / 4) with n
        by (rewrite (Z.mul_comm 4 n), Z.div_mul by lia; reflexivity).
      do 3 f_equal.
      unfold overwrite, wire. rewrite <- app_comm_cons.
      cbn [drop wire_payload]. fold rs. rewrite drop_0.
      rewrite take_app_length'
        by (rewrite length_wire_records, Hrs; lia).
      now rewrite decode_wire_records.
    + lia.
    + rewrite Z.mul_comm. apply Z.mod_mul. lia.
    + unfold overwrite. rewrite length_app, length_drop, length_wire_procs_call by lia.
      lia.
    + replace (4 * n / 4) with n
        by (rewrite (Z.mul_comm 4 n), Z.div_mul by lia; reflexivity).
      lia.
  - simpl. now rewrite take_app_length'.
  - simpl. now rewrite drop_app_length'.
Qed.

(** C4. [lmkd_pack_get_procprio] called with a field count of 3 yields
    [PROC_TYPE_APP] whatever slot 4 holds, and reads [pid], [uid] and
    [oomadj] from slots 1 to 3; called with a field count of 4 it reads
    [ptype] from slot 4.  A packet written by [lmkd_pack_set_procprio] and
    decoded with a field count of 3 gives the payload with [ptype] set to
    [PROC_TYPE_APP]. *)
Theorem get_procprio_backward_compatible packet params s1 s2 s3 s4 packet0 p :
  packet !! 1%nat = Some s1 -> packet !! 2%nat = Some s2 ->
  packet !! 3%nat = Some s3 -> packet !! 4%nat = Some s4 ->
  is_ctrl_packet packet0 -> procprio_typed p ->
  lmkd_pack_get_procprio packet 3 params =
    Returns {| pid := to_int32 (ntoh_slot s1);
               uid := to_uint32 (ntoh_slot s2);
               oomadj := to_int32 (ntoh_slot s3);
               ptype := PROC_TYPE_APP |}
  /\ (forall v,
        lmkd_pack_get_procprio (<[4%nat := v]> packet) 3 params =
          lmkd_pack_get_procprio packet 3 params)
  /\ lmkd_pack_get_procprio packet 4 params =
       Returns {| pid := to_int32 (ntoh_slot s1);
                  uid := to_uint32 (ntoh_slot s2);
                  oomadj := to_int32 (ntoh_slot s3);
                  ptype := to_uint32 (ntoh_slot s4) |}
  /\ decodes_back (lmkd_pack_set_procprio packet0 p)
       (fun packet' => lmkd_pack_get_procprio packet' 3 params)
       (set_ptype PROC_TYPE_APP p).
Proof.
  intros H1 H2 H3 H4 Hp0 (Hpid & Huid & Hadj & Htype).
  split; [|split; [|split]].
  - now apply get_procprio_slots_old.
  - intros v.
    rewrite (get_procprio_slots_old packet 3 params s1 s2 s3) by (lia || assumption).
    apply get_procprio_slots_old;
      [lia | rewrite list_lookup_insert_ne by lia; assumption ..].
  - now apply get_procprio_slots_new.
  - apply (encode_decodes_back (SetProcprio p)); [exact I | exact Hp0 |].
    rewrite (get_procprio_slots_old _ 3 params
               (hton_slot (pid p)) (hton_slot (uid p)) (hton_slot (oomadj p)))
      by (reflexivity || lia).
    rewrite (slot_roundtrip_int _ Hpid), (slot_roundtrip_uint _ Huid),
      (slot_roundtrip_int _ Hadj).
    reflexivity.
Qed.

(** C5. Every encoder returns the number of bytes it used, four times the
    number of slots it wrote: its wire image replaces the first slots of
    the packet and the others are as before.  [lmkd_pack_set_target] with
    [n] targets returns [(2n+1)*4], which for 6 targets is 52, that is
    [CTRL_PACKET_MAX_SIZE]; [lmkd_pack_set_procs_prio] with 3 records
    returns 52 as well. *)
Theorem encode_returns_bytes_used c packet targets (n : nat) params :
  is_ctrl_packet packet ->
  encode_within_limits c ->
  Z.of_nat n <= MAX_TARGETS -> (n <= length targets)%nat ->
  is_procs_prio params ->
  encode c packet =
    Returns (overwrite (wire c) packet, 4 * Z.of_nat (length (wire c)))
  /\ (exists packet',
         lmkd_pack_set_target packet targets n =
           Returns (packet', (2 * Z.of_nat n + 1) * 4))
  /\ (Z.of_nat n = MAX_TARGETS ->
      exists packet',
        lmkd_pack_set_target packet targets n = Returns (packet', CTRL_PACKET_MAX_SIZE))
  /\ CTRL_PACKET_MAX_SIZE = 52
  /\ (exists packet',
         lmkd_pack_set_procs_prio packet params PROCS_PRIO_MAX_RECORD_COUNT =
           Returns (packet', 52)).
Proof.
  intros Hp Hc Hn Htg Hparams.
  assert (Htarget :
            lmkd_pack_set_target packet targets n =
              Returns (overwrite (wire (SetTarget targets n)) packet,
                       (2 * Z.of_nat n + 1) * 4)).
  { change (lmkd_pack_set_target packet targets n)
      with (encode (SetTarget targets n) packet).
    rewrite encode_wire by (simpl; auto).
    rewrite length_wire_target_call by exact Htg.
    do 2 f_equal. unfold sizeof_int. lia. }
  split; [|split; [|split; [|split]]].
  - now apply encode_wire.
  - eexists. exact Htarget.
  - intros H6. rewrite Htarget. eexists. do 2 f_equal.
    rewrite H6. reflexivity.
  - reflexivity.
  - change (lmkd_pack_set_procs_prio packet params PROCS_PRIO_MAX_RECORD_COUNT)
      with (encode (SetProcsPrio params PROCS_PRIO_MAX_RECORD_COUNT) packet).
    rewrite encode_wire by (simpl; auto with zarith).
    assert (Hrec : length (procs params) = 3%nat) by (apply Nat2Z.inj; exact Hparams).
    rewrite length_wire_procs_call by (rewrite Hrec; reflexivity).
    eexists. reflexivity.
Qed.

(** C6. Every encoder writes its command, converted from host to network
    byte order, into slot 0: on a control packet, within the structural
    limits, each returns a packet whose slot 0 holds it, and so does any
    call that returns on any memory.  [lmkd_pack_get_cmd] returns the
    conversion of slot 0 from network to host order, unchecked.  So the
    command of every encoded packet is read back, and on an arbitrary
    buffer the result is whatever 32-bit value slot 0 stands for: every
    such value is the result for some slot 0, such as 12, which names no
    command. *)
Theorem get_cmd_reads_slot_0 c packet buffer s v :
  encode_within_limits c -> is_ctrl_packet packet ->
  buffer !! 0%nat = Some s ->
  is_uint v ->
  (exists packet' size,
      encode c packet = Returns (packet', size)
      /\ packet' !! 0%nat = Some (hton_slot (lmk_cmd_value (encode_cmd c)))
      /\ lmkd_pack_get_cmd packet' = Returns (lmk_cmd_value (encode_cmd c)))
  /\ (forall memory packet' size,
        encode c memory = Returns (packet', size) ->
        packet' !! 0%nat = Some (hton_slot (lmk_cmd_value (encode_cmd c)))
        /\ lmkd_pack_get_cmd packet' = Returns (lmk_cmd_value (encode_cmd c)))
  /\ lmkd_pack_get_cmd buffer = Returns (ntohl host (to_uint32 s))
  /\ lmkd_pack_get_cmd (<[0%nat := hton_slot v]> buffer) = Returns v
  /\ lmkd_pack_get_cmd (<[0%nat := hton_slot 12]> buffer) = Returns 12
  /\ lmk_cmd_of_value 12 = None.
Proof.
  intros Hc Hp Hs Hv.
  pose proof (lookup_lt_Some _ _ _ Hs) as Hlen.
  pose proof (encode_wire c packet Hc Hp) as Henc.
  split; [|split; [|split; [|split; [|split]]]].
  - exists (overwrite (wire c) packet), (sizeof_int * Z.of_nat (length (wire c))).
    split; [exact Henc|]. split.
    + exact (encode_cmd_slot _ _ _ _ Henc).
    + exact (get_cmd_encode _ _ _ _ Henc).
  - intros memory packet' size Hret. split.
    + exact (encode_cmd_slot _ _ _ _ Hret).
    + exact (get_cmd_encode _ _ _ _ Hret).
  - rewrite (get_cmd_slot _ _ Hs). unfold ntoh_slot.
    now rewrite (to_uint32_id _ (ntohl_range _ _)).
  - now apply get_cmd_hton.
  - apply get_cmd_hton; [exact Hlen | split; discriminate].
  - reflexivity.
Qed.

(** C7. The one error of the codec is the -1 of
    [lmkd_pack_get_procs_prio], returned exactly when the field count is
    not that of a whole, positive number of 4-slot records; any other
    result of that function is the record count.  Every other decoder
    returns on every control packet whatever its slots hold, and every
    encoder returns a byte count between 4 and [CTRL_PACKET_MAX_SIZE]; the
    structural limits apart, which the header leaves to the caller, no
    argument and no slot is checked. *)
Theorem only_batch_decoder_fails packet params field_count :
  is_ctrl_packet packet ->
  ((exists params',
       lmkd_pack_get_procs_prio packet params field_count = Returns (params', -1))
     <-> ~ (exists n, 1 <= n /\ field_count = 4 * n))
  /\ (forall params' r,
        lmkd_pack_get_procs_prio packet params field_count = Returns (params', r) ->
        r = -1 \/ (1 <= r /\ field_count = 4 * r))
  /\ (forall c, decode_within_limits c -> exists v, decode c packet = Returns v)
  /\ (forall c, encode_within_limits c ->
        exists packet' size,
          encode c packet = Returns (packet', size)
          /\ 4 <= size <= CTRL_PACKET_MAX_SIZE).
Proof.
  intros Hp.
  assert (Hwhole : (field_count < 4 \/ field_count mod 4 <> 0)
                   <-> ~ (exists n, 1 <= n /\ field_count = 4 * n)).
  { pose proof (Z.div_mod field_count 4 ltac:(lia)) as Hdiv.
    pose proof (Z.mod_pos_bound field_count 4 ltac:(lia)) as Hmod.
    split.
    - intros H [n [Hn ->]].
      rewrite (Z.mul_comm 4 n), Z.mod_mul in H by lia. lia.
    - intros H.
      destruct (Z_lt_le_dec field_count 4) as [?|Hge]; [tauto|].
      destruct (Z.eq_dec (field_count mod 4) 0) as [H0|?]; [|tauto].
      exfalso. apply H. exists (field_count / 4). lia. }
  split; [|split; [|split]].
  - rewrite <- Hwhole. split.
    + intros [params' H]. now apply get_procs_prio_minus_one in H.
    + intros H. exists params. now apply get_procs_prio_rejects.
  - intros params' r H.
    destruct (Z_lt_le_dec field_count 4) as [Hlt|Hge].
    { rewrite get_procs_prio_rejects in H by tauto. injection H as _ <-. tauto. }
    destruct (Z.eq_dec (field_count mod 4) 0) as [Hmod|Hmod].
    2: { rewrite get_procs_prio_rejects in H by tauto. injection H as _ <-. tauto. }
    right. rewrite get_procs_prio_accepts in H by lia.
    apply bind_Returns_inv in H as ([p i] & _ & H).
    injection H as _ <-.
    rewrite Z.quot_div_nonneg by lia.
    pose proof (Z.div_mod field_count 4 ltac:(lia)). lia.
  - intros c Hc.
    destruct (ctrl_packet_slots _ Hp)
      as (s0 & s1 & s2 & s3 & s4 & s5 & s6 & s7 & s8 & s9 & s10 & s11 & s12 & ->).
    destruct c; simpl in Hc; cbn [decode].
    + rewrite (get_cmd_slot _ s0) by reflexivity. eexists. reflexivity.
    + change MAX_TARGETS with 6 in Hc.
      assert (Hcase : In target_idx [0; 1; 2; 3; 4; 5]) by (simpl; lia).
      simpl in Hcase.
      destruct Hcase as [<-|[<-|[<-|[<-|[<-|[<-|[]]]]]]];
        eexists; reflexivity.
    + destruct (Z_lt_le_dec 3 field_count0) as [Hfc|Hfc].
      * rewrite (get_procprio_slots_new _ _ _ s1 s2 s3 s4)
          by (reflexivity || exact Hfc).
        eexists. reflexivity.
      * rewrite (get_procprio_slots_old _ _ _ s1 s2 s3)
          by (reflexivity || exact Hfc).
        eexists. reflexivity.
    + eexists. reflexivity.
    + eexists. reflexivity.
    + eexists. reflexivity.
    + eexists. reflexivity.
    + eexists. reflexivity.
  - intros c Hc. rewrite (encode_wire c packet Hc Hp).
    do 2 eexists. split; [reflexivity|].
    change CTRL_PACKET_MAX_SIZE with 52. unfold sizeof_int.
    destruct c; simpl in Hc; try (simpl; lia).
    + destruct Hc as [Hcnt Htg]. change MAX_TARGETS with 6 in Hcnt.
      rewrite length_wire_target_call by exact Htg. lia.
    + destruct Hc as [Hcnt Hparams].
      change PROCS_PRIO_MAX_RECORD_COUNT with 3 in Hcnt.
      assert (Hrec : length (procs params0) = 3%nat)
        by (apply Nat2Z.inj; exact Hparams).
      rewrite length_wire_procs_call by lia. lia.
Qed.

(** C8. [lmkd_pack_get_procs_prio] puts no upper bound on the field
    count.  For every multiple of 4 from 4 on, 16 and beyond included,
    the check passes (the result is never -1); given a buffer with that
    many slots after slot 0 and an array with that many records it reads
    [field_count] slots from slot 1 on and writes [field_count / 4]
    records; and for a count above 12 it reads past the 13 slots of a
    control packet, and writes past the 3 records of the output struct
    even when the packet buffer is long enough. *)
Theorem get_procs_prio_no_upper_bound packet params field_count :
  4 <= field_count <= INT_MAX ->
  field_count mod 4 = 0 ->
  (forall params',
      lmkd_pack_get_procs_prio packet params field_count <> Returns (params', -1))
  /\ (field_count < Z.of_nat (length packet) ->
      field_count / 4 <= Z.of_nat (length (procs params)) ->
      lmkd_pack_get_procs_prio packet params field_count =
        Returns ({| procs :=
                      decode_records (take (Z.to_nat field_count) (drop 1 packet))
                        ++ drop (Z.to_nat (field_count / 4)) (procs params) |},
                 field_count / 4))
  /\ (12 < field_count ->
      is_ctrl_packet packet -> is_procs_prio params ->
      lmkd_pack_get_procs_prio packet params field_count =
        Undefined (PacketOutOfBounds CTRL_PACKET_SLOTS))
  /\ (12 < field_count ->
      field_count < Z.of_nat (length packet) -> is_procs_prio params ->
      lmkd_pack_get_procs_prio packet params field_count =
        Undefined (ProcsOutOfBounds PROCS_PRIO_MAX_RECORD_COUNT)).
Proof.
  intros Hfc Hmod.
  assert (Hturns : 12 < field_count ->
                   exists m, Z.to_nat (Z.quot field_count 4) = S (S (S (S m)))).
  { intros H12. rewrite Z.quot_div_nonneg by lia.
    pose proof (Z.div_mod field_count 4 ltac:(lia)) as Hdiv.
    exists (Z.to_nat (field_count / 4) - 4)%nat. lia. }
  split; [|split; [|split]].
  - intros params' H. apply get_procs_prio_minus_one in H. lia.
  - intros Hlen Hrec. now apply get_procs_prio_decodes.
  - intros H12 Hp Hparams. destruct (Hturns H12) as [m Hm].
    rewrite get_procs_prio_accepts by lia.
    rewrite Hm, get_procs_prio_loop_overruns_packet by assumption.
    reflexivity.
  - intros H12 Hlen Hparams. destruct (Hturns H12) as [m Hm].
    pose proof (Z.div_mod field_count 4 ltac:(lia)) as Hdiv.
    rewrite get_procs_prio_accepts by lia.
    rewrite Hm, get_procs_prio_loop_overruns_procs by (assumption || lia).
    reflexivity.
Qed.

(** C9. When [lmkd_pack_get_procs_prio] fails, that is when the field
    count is below 4 or not a multiple of 4, it returns -1 and the output
    struct is exactly as it was: the check comes before any write.
    Conversely a result of -1 always comes with the output untouched. *)
Theorem get_procs_prio_failure_keeps_output packet params field_count :
  field_count < 4 \/ field_count mod 4 <> 0 ->
  lmkd_pack_get_procs_prio packet params field_count = Returns (params, -1)
  /\ (forall params',
        lmkd_pack_get_procs_prio packet params field_count = Returns (params', -1) ->
        params' = params).
Proof.
  intros H. split.
  - now apply get_procs_prio_rejects.
  - intros params' H'. now apply get_procs_prio_minus_one in H'.
Qed.


(** ** Buffers shorter than what an encoder writes *)

Lemma array_set_end {A} oob (a : list A) idx v :
  idx = Z.of_nat (length a) ->
  array_set oob a idx v = Undefined (oob idx).
Proof.
  intros ->. unfold array_set.
  rewrite (proj2 (Z.ltb_ge _ _)) by lia.
  now rewrite andb_false_r.
Qed.

Lemma packet_set_lookup packet (i : nat) idx x v :
  idx = Z.of_nat i -> packet !! i = Some x ->
  packet_set packet idx v = Returns (<[i := v]> packet).
Proof.
  intros -> Hx. pose proof (lookup_lt_Some _ _ _ Hx) as Hi.
  unfold packet_set, array_set.
  rewrite (proj2 (Z.leb_le 0 _)) by lia.
  rewrite (proj2 (Z.ltb_lt _ _)) by lia.
  simpl. now rewrite Nat2Z.id.
Qed.

(** The loop of [lmkd_pack_set_target] on a buffer that ends before the
    last target: the first write past the end is at the length of the
    buffer. *)
Lemma set_target_loop_overrun target_cnt :
  forall done rest targets idx,
    idx = Z.of_nat (length done) ->
    (length rest < 2 * target_cnt)%nat ->
    (target_cnt <= length targets)%nat ->
    Z.of_nat (length (done ++ rest)) <= 2 ^ 30 ->
    set_target_loop target_cnt (done ++ rest) targets idx =
      Undefined (PacketOutOfBounds (Z.of_nat (length (done ++ rest)))).
Proof.
  induction target_cnt as [|cnt IH]; intros done rest targets idx Hidx Hrest Htg Hmax.
  - simpl in Hrest. lia.
  - destruct targets as [|t targets]; [simpl in Htg; lia|].
    assert (Hint : INT_MAX = 2147483647) by reflexivity.
    assert (Hmin : INT_MIN = -2147483648) by reflexivity.
    assert (Hpow : 2 ^ 30 = 1073741824) by reflexivity.
    rewrite length_app in Hmax.
    cbn [set_target_loop]. unfold packet_set.
    destruct rest as [|a rest].
    { rewrite app_nil_r. rewrite array_set_end by exact Hidx.
      now subst idx. }
    rewrite (array_set_app _ done a) by exact Hidx.
    next_statement.
    rewrite (incr_small idx) by (simpl in Hmax; lia).
    destruct rest as [|b rest].
    { rewrite app_nil_r. rewrite array_set_end by (rewrite length_app; simpl; lia).
      unfold mbind, outcome_bind. do 2 f_equal.
      rewrite length_app. simpl. lia. }
    rewrite (array_set_app _ (done ++ [_]) b) by (rewrite length_app; simpl; lia).
    next_statement.
    rewrite (incr_small (idx + 1)) by (simpl in Hmax; lia).
    fold packet_set.
    rewrite IH;
      [ | rewrite !length_app; simpl; lia | simpl in Hrest; lia
        | simpl in Htg; lia | rewrite !length_app; simpl in *; lia ].
    do 3 f_equal. rewrite !length_app. simpl. lia.
Qed.

Lemma set_procs_prio_body_overrun done rest params (k : nat) r packetIdx :
  packetIdx = Z.of_nat (length done) ->
  (length rest < 4)%nat ->
  procs params !! k = Some r ->
  Z.of_nat (length (done ++ rest)) <= 2 ^ 30 ->
  set_procs_prio_body (done ++ rest) params (Z.of_nat k) packetIdx =
    Undefined (PacketOutOfBounds (Z.of_nat (length (done ++ rest)))).
Proof.
  intros Hidx Hrest Hr Hmax.
  assert (Hint : INT_MAX = 2147483647) by reflexivity.
  assert (Hmin : INT_MIN = -2147483648) by reflexivity.
  assert (Hpow : 2 ^ 30 = 1073741824) by reflexivity.
  rewrite length_app in Hmax.
  unfold set_procs_prio_body, procs_get, packet_set.
  rewrite (array_get_lookup _ _ _ _ Hr). next_statement.
  destruct rest as [|a rest].
  { rewrite app_nil_r, array_set_end by exact Hidx. now subst packetIdx. }
  rewrite (array_set_app _ done a) by exact Hidx. next_statement.
  rewrite (incr_small packetIdx) by (simpl in Hmax; lia).
  destruct rest as [|b rest].
  { rewrite app_nil_r, array_set_end by (rewrite length_app; simpl; lia).
    unfold mbind, outcome_bind. do 2 f_equal. rewrite length_app. simpl. lia. }
  rewrite (array_set_app _ (done ++ [_]) b) by (rewrite length_app; simpl; lia).
  next_statement.
  rewrite (incr_small (packetIdx + 1)) by (simpl in Hmax; lia).
  destruct rest as [|c rest].
  { rewrite app_nil_r, array_set_end by (rewrite !length_app; simpl; lia).
    unfold mbind, outcome_bind. do 2 f_equal. rewrite !length_app. simpl. lia. }
  rewrite (array_set_app _ ((done ++ [_]) ++ [_]) c)
    by (rewrite !length_app; simpl; lia).
  next_statement.
  rewrite (incr_small (packetIdx + 1 + 1)) by (simpl in Hmax; lia).
  destruct rest as [|d rest]; [|simpl in Hrest; lia].
  rewrite app_nil_r, array_set_end by (rewrite !length_app; simpl; lia).
  unfold mbind, outcome_bind. do 2 f_equal. rewrite !length_app. simpl. lia.
Qed.

(** The loop of [lmkd_pack_set_procs_prio] on a buffer that ends before the
    last record. *)
Lemma set_procs_prio_loop_overrun n :
  forall done rest params (k : nat) packetIdx,
    packetIdx = Z.of_nat (length done) ->
    (length rest < 4 * n)%nat ->
    (k + n <= length (procs params))%nat ->
    Z.of_nat (length (done ++ rest)) <= 2 ^ 30 ->
    (4 * k <= length done)%nat ->
    set_procs_prio_loop n (done ++ rest) params (Z.of_nat k) packetIdx =
      Undefined (PacketOutOfBounds (Z.of_nat (length (done ++ rest)))).
Proof.
  induction n as [|n IH];
    intros done rest params k packetIdx Hidx Hrest Hk Hmax Hkmax.
  - simpl in Hrest. lia.
  - destruct (lookup_lt_is_Some_2 (procs params) k ltac:(lia)) as [r Hr].
    assert (Hint : INT_MAX = 2147483647) by reflexivity.
    assert (Hmin : INT_MIN = -2147483648) by reflexivity.
    assert (Hpow : 2 ^ 30 = 1073741824) by reflexivity.
    cbn [set_procs_prio_loop].
    destruct (Nat.lt_ge_cases (length rest) 4) as [Hshort|Hlong].
    + now rewrite (set_procs_prio_body_overrun done rest params k r).
    + destruct rest as [|a [|b [|c [|d rest]]]]; [simpl in Hlong; lia ..|].
      rewrite length_app in Hmax.
      rewrite (set_procs_prio_body_spec done a b c d rest params k r)
        by (try assumption; simpl in Hmax; lia).
      next_statement.
      rewrite (incr_small (Z.of_nat k)) by (simpl in Hmax; lia).
      replace (Z.of_nat k + 1) with (Z.of_nat (S k)) by lia.
      rewrite IH;
        [ | rewrite length_app; simpl; lia | simpl in Hrest; lia | lia
          | rewrite !length_app; simpl in *; lia
          | rewrite length_app; simpl; lia ].
      do 3 f_equal. rewrite !length_app. simpl. lia.
Qed.

Lemma set_target_overrun packet targets target_cnt :
  (target_cnt <= length targets)%nat ->
  (length packet <= 2 * target_cnt)%nat ->
  Z.of_nat (length packet) <= 2 ^ 30 ->
  lmkd_pack_set_target packet targets target_cnt =
    Undefined (PacketOutOfBounds (Z.of_nat (length packet))).
Proof.
  intros Htg Hlen Hmax. unfold lmkd_pack_set_target, packet_set.
  destruct packet as [|s0 rest].
  { now rewrite array_set_end. }
  rewrite (array_set_app _ [] s0 rest 0) by reflexivity.
  next_statement. fold packet_set.
  change (incr 0) with (Z.of_nat (length ([] ++ [hton_slot 0]))).
  rewrite set_target_loop_overrun;
    [reflexivity | reflexivity | simpl in Hlen; lia | exact Htg | exact Hmax].
Qed.

Lemma set_procs_prio_overrun packet params procs_count :
  (Z.to_nat procs_count <= length (procs params))%nat ->
  (length packet <= 4 * Z.to_nat procs_count)%nat ->
  Z.of_nat (length packet) <= 2 ^ 30 ->
  lmkd_pack_set_procs_prio packet params procs_count =
    Undefined (PacketOutOfBounds (Z.of_nat (length packet))).
Proof.
  intros Hn Hlen Hmax.
  assert (Hint : INT_MAX = 2147483647) by reflexivity.
  assert (Hpow : 2 ^ 30 = 1073741824) by reflexivity.
  unfold lmkd_pack_set_procs_prio, packet_set.
  destruct packet as [|s0 rest].
  { now rewrite array_set_end. }
  rewrite (array_set_app _ [] s0 rest 0) by reflexivity.
  next_statement. fold packet_set.
  change 1 with (Z.of_nat (length ([] ++ [hton_slot 11]))) at 1.
  change 0 with (Z.of_nat 0) at 1.
  rewrite set_procs_prio_loop_overrun;
    [reflexivity | reflexivity | simpl in Hlen; lia | lia | exact Hmax
    | simpl; lia].
Qed.

Lemma packet_set_slot packet idx x v :
  0 <= idx -> packet !! Z.to_nat idx = Some x ->
  packet_set packet idx v = Returns (<[Z.to_nat idx := v]> packet).
Proof. intros Hidx Hx. apply (packet_set_lookup _ _ _ x); [lia | exact Hx]. Qed.

(** Runs the writes of an encoder whose slots are there. *)
Ltac run_writes :=
  repeat (erewrite packet_set_slot by (reflexivity || discriminate); next_statement);
  rewrite ?to_size_t_sizeof_int, ?times_sizeof_int_slots by lia.

(** ** Reads away from slot 0 *)








(** ** One packet written over another *)

Lemma length_overwrite slots packet :
  (length slots <= length packet)%nat ->
  length (overwrite slots packet) = length packet.
Proof.
  intros H. unfold overwrite. rewrite length_app, length_drop. lia.
Qed.

Lemma overwrite_overwrite slots1 slots2 packet :
  (length slots1 <= length slots2)%nat ->
  overwrite slots2 (overwrite slots1 packet) = overwrite slots2 packet.
Proof.
  intros H. unfold overwrite. f_equal.
  rewrite drop_app_ge by exact H.
  rewrite drop_drop. f_equal. lia.
Qed.

Lemma length_wire_le c :
  encode_within_limits c -> (length (wire c) <= 13)%nat.
Proof.
  intros Hc. destruct c; simpl in Hc; try (simpl; lia).
  - destruct Hc as [Hcnt Htg]. change MAX_TARGETS with 6 in Hcnt.
    rewrite length_wire_target_call by exact Htg. lia.
  - destruct Hc as [Hcnt Hparams].
    change PROCS_PRIO_MAX_RECORD_COUNT with 3 in Hcnt.
    assert (Hrec : length (procs params) = 3%nat)
      by (apply Nat2Z.inj; exact Hparams).
    rewrite length_wire_procs_call by lia. lia.
Qed.

(** ** The size an encoder returns *)

(** The encoders without a loop return the same size whenever they
    return. *)
Lemma encode_fixed_size c packet packet' size :
  encoder_of c <> lmkd_pack_set_target_fn ->
  encoder_of c <> lmkd_pack_set_procs_prio_fn ->
  encode c packet = Returns (packet', size) ->
  size = 4 * Z.of_nat (length (wire c)).
Proof.
  intros Ht Hb H.
  destruct c; try (now contradiction Ht); try (now contradiction Hb);
    cbn [encode] in H;
    unfold lmkd_pack_set_procprio, lmkd_pack_set_procremove,
      lmkd_pack_set_procpurge, lmkd_pack_set_getkillcnt,
      lmkd_pack_set_getkillcnt_repl, lmkd_pack_set_subscribe,
      lmkd_pack_set_prockills, lmkd_pack_set_update_props,
      lmkd_pack_start_monitoring, lmkd_pack_set_update_props_repl,
      lmkd_pack_set_boot_completed_notif,
      lmkd_pack_set_boot_completed_notif_repl in H;
    repeat (apply bind_Returns_inv in H as (? & _ & H));
    injection H as _ <-;
    rewrite ?to_size_t_sizeof_int, ?times_sizeof_int_slots by lia;
    reflexivity.
Qed.

(** ** Slots read and written back *)

Lemma hton_of_ntoh s x :
  is_int s -> to_uint32 x = ntoh_slot s -> hton_slot x = s.
Proof.
  intros Hs Hx. unfold hton_slot. rewrite Hx. unfold ntoh_slot.
  rewrite htonl_ntohl by apply to_uint32_range.
  now apply to_int32_to_uint32.
Qed.

Lemma hton_ntoh_int s : is_int s -> hton_slot (to_int32 (ntoh_slot s)) = s.
Proof.
  intros Hs. apply hton_of_ntoh; [exact Hs|].
  apply to_uint32_to_int32, ntohl_range.
Qed.

Lemma hton_ntoh_uint s : is_int s -> hton_slot (to_uint32 (ntoh_slot s)) = s.
Proof.
  intros Hs. apply hton_of_ntoh; [exact Hs|].
  rewrite (to_uint32_id (ntoh_slot s)) by apply ntohl_range.
  apply to_uint32_id, ntohl_range.
Qed.

Lemma hton_ntoh_enum s :
  is_int s -> hton_slot (to_int32 (to_uint32 (ntoh_slot s))) = s.
Proof.
  intros Hs. apply hton_of_ntoh; [exact Hs|].
  rewrite (to_uint32_id (ntoh_slot s)) by apply ntohl_range.
  apply to_uint32_to_int32, ntohl_range.
Qed.

Lemma wire_decode_record s1 s2 s3 s4 :
  is_int s1 -> is_int s2 -> is_int s3 -> is_int s4 ->
  wire_record (decode_record s1 s2 s3 s4) = [s1; s2; s3; s4].
Proof.
  intros H1 H2 H3 H4. unfold wire_record, decode_record. simpl.
  now rewrite (hton_ntoh_int _ H1), (hton_ntoh_uint _ H2), (hton_ntoh_int _ H3),
    (hton_ntoh_enum _ H4).
Qed.

(** ** Indices and counts out of range *)

Lemma packet_get_outside packet idx :
  idx < 0 \/ Z.of_nat (length packet) <= idx ->
  packet_get packet idx = Undefined (PacketOutOfBounds idx).
Proof.
  intros H. unfold packet_get, array_get.
  destruct (0 <=? idx) eqn:H0; [|reflexivity].
  apply Z.leb_le in H0.
  now rewrite (lookup_ge_None_2 packet) by lia.
Qed.

(** The loop of [lmkd_pack_set_target] asked for more targets than the
    array holds, in a buffer with room for those it holds: it reads past
    the array. *)
Lemma set_target_loop_exhausts targets :
  forall target_cnt done rest idx,
    idx = Z.of_nat (length done) ->
    (length targets < target_cnt)%nat ->
    (2 * length targets <= length rest)%nat ->
    idx + 2 * Z.of_nat (length targets) <= INT_MAX ->
    set_target_loop target_cnt (done ++ rest) targets idx =
      Undefined TargetsOutOfBounds.
Proof.
  induction targets as [|t targets IH];
    intros target_cnt done rest idx Hidx Hcnt Hrest Hmax;
    (destruct target_cnt as [|cnt]; [simpl in Hcnt; lia|]).
  - reflexivity.
  - destruct rest as [|a [|b rest]]; [simpl in Hrest; lia ..|].
    assert (Hint : INT_MAX = 2147483647) by reflexivity.
    assert (Hmin : INT_MIN = -2147483648) by reflexivity.
    cbn [set_target_loop]. unfold packet_set.
    rewrite (array_set_app _ done a) by exact Hidx.
    next_statement.
    rewrite (incr_small idx) by (simpl in Hmax; lia).
    rewrite (array_set_app _ (done ++ [_]) b)
      by (rewrite length_app; simpl; lia).
    next_statement.
    rewrite (incr_small (idx + 1)) by (simpl in Hmax; lia).
    fold packet_set.
    apply IH;
      [ rewrite !length_app; simpl; lia | simpl in Hcnt; lia
      | simpl in Hrest; lia | simpl in Hmax; lia ].
Qed.

(** More than three turns of the loop of [lmkd_pack_set_procs_prio] on a
    [struct lmk_procs_prio]: the fourth reads [params->procs[3]]. *)
Lemma set_procs_prio_loop_overruns_procs m packet params :
  is_ctrl_packet packet -> is_procs_prio params ->
  set_procs_prio_loop (S (S (S (S m))))
      (<[0%nat := hton_slot (lmk_cmd_value LMK_PROCS_PRIO)]> packet) params 0 1 =
    Undefined (ProcsOutOfBounds 3).
Proof.
  intros Hp Hparams.
  destruct (ctrl_packet_slots _ Hp)
    as (s0 & s1 & s2 & s3 & s4 & s5 & s6 & s7 & s8 & s9 & s10 & s11 & s12 & ->).
  destruct (procs_prio_records _ Hparams) as (r0 & r1 & r2 & ->).
  reflexivity.
Qed.

(** ** The bytes of a packet *)

Lemma wire_targets_values l :
  flat_map wire_target l =
    map hton_slot (flat_map (fun t => [minfree t; oom_adj_score t]) l).
Proof. induction l as [|t l IH]; simpl; [reflexivity|]. now rewrite IH. Qed.

Lemma wire_records_values l :
  flat_map wire_record l =
    map hton_slot
      (flat_map (fun r => [pid r; uid r; oomadj r; to_int32 (ptype r)]) l).
Proof. induction l as [|r l IH]; simpl; [reflexivity|]. now rewrite IH. Qed.

(** The wire image of a packet is [htonl] of each argument in turn. *)
Lemma wire_host_values c : wire c = map hton_slot (host_values c).
Proof.
  unfold wire, host_values. simpl. f_equal.
  destruct c; simpl; try reflexivity.
  - apply wire_targets_values.
  - apply wire_records_values.
Qed.

Lemma slot_bytes_hton v :
  store_uint32 host (to_uint32 (hton_slot v)) = be_bytes (to_uint32 v).
Proof.
  unfold hton_slot.
  rewrite to_uint32_to_int32 by apply htonl_range.
  apply htonl_network_order, to_uint32_range.
Qed.

Lemma packet_bytes_hton l :
  packet_bytes host (map hton_slot l) = flat_map be_bytes (map to_uint32 l).
Proof.
  induction l as [|v l IH]; [reflexivity|].
  unfold packet_bytes in *. simpl. now rewrite IH, slot_bytes_hton.
Qed.

Lemma length_store_uint32 e x : length (store_uint32 e x) = 4%nat.
Proof. destruct e; reflexivity. Qed.

Lemma length_packet_bytes e l :
  length (packet_bytes e l) = (4 * length l)%nat.
Proof.
  induction l as [|s l IH]; [reflexivity|].
  unfold packet_bytes in *. simpl flat_map.
  rewrite length_app, IH, length_store_uint32. simpl. lia.
Qed.

Lemma packet_bytes_app e l1 l2 :
  packet_bytes e (l1 ++ l2) = packet_bytes e l1 ++ packet_bytes e l2.
Proof. unfold packet_bytes. apply flat_map_app. Qed.

Lemma get_procprio_after_record cmd p packet out :
  procprio_typed p ->
  lmkd_pack_get_procprio (overwrite (cmd :: wire_record p) packet) 4 out =
    Returns p.
Proof.
  intros (Hpid & Huid & Hadj & Htype).
  rewrite (get_procprio_slots_new _ 4 out
             (hton_slot (pid p)) (hton_slot (uid p)) (hton_slot (oomadj p))
             (hton_slot (to_int32 (ptype p))))
    by (reflexivity || lia).
  unfold decode_record.
  rewrite (slot_roundtrip_int _ Hpid), (slot_roundtrip_uint _ Huid),
    (slot_roundtrip_int _ Hadj), (slot_roundtrip_enum _ Htype).
  now destruct p.
Qed.

Lemma get_procprio_overwrite p packet out :
  procprio_typed p ->
  lmkd_pack_get_procprio (overwrite (wire (SetProcprio p)) packet) 4 out =
    Returns p.
Proof. apply get_procprio_after_record. Qed.

(** ** Further properties *)

(** X1. An encoder returns exactly when the buffer has the slots it
    writes.  Given that many slots (and the array elements it is asked to
    take), it overwrites them with its wire image and returns four times
    their number; given fewer, the first access past the end is the write
    at the length of the buffer.  Buffers of up to 2^30 slots. *)
Theorem encode_needs_its_slots c packet :
  encode_args_fit c ->
  Z.of_nat (length packet) <= 2 ^ 30 ->
  ((length (wire c) <= length packet)%nat ->
   encode c packet =
     Returns (overwrite (wire c) packet, 4 * Z.of_nat (length (wire c))))
  /\ ((length packet < length (wire c))%nat ->
      encode c packet = Undefined (PacketOutOfBounds (Z.of_nat (length packet)))).
Proof.
  intros Hfit Hmax.
  destruct c; simpl in Hfit;
    try (split; intros H;
         destruct packet as [|s0 [|s1 [|s2 [|s3 [|s4 rest]]]]];
         simpl in H; try lia;
         unfold encode, lmkd_pack_set_procprio, lmkd_pack_set_procremove,
           lmkd_pack_set_procpurge, lmkd_pack_set_getkillcnt,
           lmkd_pack_set_getkillcnt_repl, lmkd_pack_set_subscribe,
           lmkd_pack_set_prockills, lmkd_pack_set_update_props,
           lmkd_pack_start_monitoring, lmkd_pack_set_update_props_repl,
           lmkd_pack_set_boot_completed_notif,
           lmkd_pack_set_boot_completed_notif_repl;
         run_writes; reflexivity).
  - pose proof (length_wire_target_call _ _ Hfit) as Hl.
    split; intros H; rewrite Hl in H; cbn [encode].
    + rewrite set_target_wire by (assumption || lia). reflexivity.
    + apply set_target_overrun; [exact Hfit | lia | exact Hmax].
  - pose proof (length_wire_procs_call _ _ Hfit) as Hl.
    split; intros H; rewrite Hl in H; cbn [encode].
    + rewrite set_procs_prio_wire by (assumption || lia). reflexivity.
    + apply set_procs_prio_overrun; [exact Hfit | lia | exact Hmax].
Qed.


(** X3. One packet encoded over another in the same buffer.  The second
    encoder writes its own slots and clears nothing: the slots after them
    are those the first one left.  When the second packet is at least as
    long as the first, the buffer and the size are those of encoding the
    second packet alone; and encoding the same packet twice changes
    nothing. *)
Theorem encode_over_encode c1 c2 packet :
  encode_within_limits c1 -> encode_within_limits c2 ->
  is_ctrl_packet packet ->
  exists packet1 size1 packet2 size2,
    encode c1 packet = Returns (packet1, size1)
    /\ encode c2 packet1 = Returns (packet2, size2)
    /\ take (length (wire c2)) packet2 = wire c2
    /\ drop (length (wire c2)) packet2 = drop (length (wire c2)) packet1
    /\ ((length (wire c1) <= length (wire c2))%nat ->
        encode c2 packet = Returns (packet2, size2))
    /\ encode c1 packet1 = Returns (packet1, size1).
Proof.
  intros Hc1 Hc2 Hp.
  assert (Hlen : length packet = 13%nat) by (apply Nat2Z.inj; exact Hp).
  pose proof (length_wire_le _ Hc1) as Hl1.
  assert (Hp1 : is_ctrl_packet (overwrite (wire c1) packet)).
  { unfold is_ctrl_packet. rewrite length_overwrite by lia. exact Hp. }
  exists (overwrite (wire c1) packet), (sizeof_int * Z.of_nat (length (wire c1))).
  exists (overwrite (wire c2) (overwrite (wire c1) packet)),
    (sizeof_int * Z.of_nat (length (wire c2))).
  split; [now apply encode_wire|].
  split; [now apply encode_wire|].
  split; [unfold overwrite at 1; now rewrite take_app_length'|].
  split; [unfold overwrite at 1; now rewrite drop_app_length'|].
  split.
  - intros Hle. rewrite overwrite_overwrite by exact Hle. now apply encode_wire.
  - rewrite (encode_wire c1 _ Hc1 Hp1).
    now rewrite overwrite_overwrite.
Qed.

(** X4. The command and the size tell which encoder wrote a packet.  A
    request and its reply carry the same command ([LMK_GETKILLCNT],
    [LMK_UPDATE_PROPS], [LMK_BOOT_COMPLETED]), yet never the same size: two
    packets, in any buffers, with the same command in slot 0 and the same
    returned size come from the same function of the header. *)
Theorem cmd_and_size_tell_encoder c1 c2 packet1 packet2 packet1' packet2' size :
  encode c1 packet1 = Returns (packet1', size) ->
  encode c2 packet2 = Returns (packet2', size) ->
  lmkd_pack_get_cmd packet1' = lmkd_pack_get_cmd packet2' ->
  encoder_of c1 = encoder_of c2.
Proof.
  intros H1 H2 Hcmd.
  rewrite (get_cmd_encode _ _ _ _ H1), (get_cmd_encode _ _ _ _ H2) in Hcmd.
  injection Hcmd as Hcmd.
  destruct c1, c2; try reflexivity; try discriminate Hcmd;
    apply encode_fixed_size in H1; try discriminate;
    apply encode_fixed_size in H2; try discriminate;
    subst size; simpl in H2; discriminate H2.
Qed.

(** X5. Decoding loses nothing.  On a control packet whose slots are
    [int]s, each decoder followed by its encoder, given what was decoded,
    leaves every payload slot as it was: the buffer differs from the
    original in slot 0 at most, where the encoder puts its command.  So it
    is for ProcPrio (field count 4), ProcRemove, GetKillCnt, Subscribe,
    the two replies, and a batch of 1, 2 or 3 records. *)
Theorem decode_then_encode_restores_slots packet out_procprio out_procremove
    out_getkillcnt out_subscribe out_update_props out_boot out_batch n :
  is_ctrl_packet packet -> Forall is_int packet ->
  is_procs_prio out_batch -> 1 <= n <= 3 ->
  reencodes (lmkd_pack_get_procprio packet 4 out_procprio)
    (lmkd_pack_set_procprio packet)
    (<[0%nat := hton_slot (lmk_cmd_value LMK_PROCPRIO)]> packet) 20
  /\ reencodes (lmkd_pack_get_procremove packet out_procremove)
       (lmkd_pack_set_procremove packet)
       (<[0%nat := hton_slot (lmk_cmd_value LMK_PROCREMOVE)]> packet) 8
  /\ reencodes (lmkd_pack_get_getkillcnt packet out_getkillcnt)
       (lmkd_pack_set_getkillcnt packet)
       (<[0%nat := hton_slot (lmk_cmd_value LMK_GETKILLCNT)]> packet) 12
  /\ reencodes (lmkd_pack_get_subscribe packet out_subscribe)
       (fun params => lmkd_pack_set_subscribe packet (evt_type params))
       (<[0%nat := hton_slot (lmk_cmd_value LMK_SUBSCRIBE)]> packet) 8
  /\ reencodes (lmkd_pack_get_update_props_repl packet out_update_props)
       (fun params =>
          lmkd_pack_set_update_props_repl packet (update_props_result params))
       (<[0%nat := hton_slot (lmk_cmd_value LMK_UPDATE_PROPS)]> packet) 8
  /\ reencodes (lmkd_pack_get_boot_completed_notif_repl packet out_boot)
       (fun params =>
          lmkd_pack_set_boot_completed_notif_repl packet (boot_completed_result params))
       (<[0%nat := hton_slot (lmk_cmd_value LMK_BOOT_COMPLETED)]> packet) 8
  /\ reencodes (lmkd_pack_get_procs_prio packet out_batch (4 * n))
       (fun '(params, count) => lmkd_pack_set_procs_prio packet params count)
       (<[0%nat := hton_slot (lmk_cmd_value LMK_PROCS_PRIO)]> packet)
       ((4 * n + 1) * 4).
Proof.
  intros Hp Hint Hout Hn.
  destruct (ctrl_packet_slots _ Hp)
    as (s0 & s1 & s2 & s3 & s4 & s5 & s6 & s7 & s8 & s9 & s10 & s11 & s12 & ->).
  rewrite !Forall_cons in Hint.
  destruct Hint as (_ & H1 & H2 & H3 & H4 & H5 & H6 & H7 & H8 & H9 & H10 & H11
                    & H12 & _).
  unfold reencodes.
  split; [|split; [|split; [|split; [|split; [|split]]]]].
  - eexists. split; [now apply (get_procprio_slots_new _ 4 _ s1 s2 s3 s4)|].
    change (lmkd_pack_set_procprio ?p ?x) with (encode (SetProcprio x) p).
    rewrite encode_wire by (exact I || exact Hp).
    unfold overwrite, wire. cbn [wire_payload encode_cmd].
    now rewrite (wire_decode_record _ _ _ _ H1 H2 H3 H4).
  - eexists. split; [now apply (get_procremove_slots _ _ s1)|].
    change (lmkd_pack_set_procremove ?p ?x) with (encode (SetProcremove x) p).
    rewrite encode_wire by (exact I || exact Hp).
    unfold overwrite, wire. cbn [wire_payload encode_cmd procremove_pid].
    now rewrite (hton_ntoh_int _ H1).
  - eexists. split; [now apply (get_getkillcnt_slots _ _ s1 s2)|].
    change (lmkd_pack_set_getkillcnt ?p ?x) with (encode (SetGetkillcnt x) p).
    rewrite encode_wire by (exact I || exact Hp).
    unfold overwrite, wire. cbn [wire_payload encode_cmd min_oomadj max_oomadj].
    now rewrite (hton_ntoh_int _ H1), (hton_ntoh_int _ H2).
  - eexists. split; [now apply (get_subscribe_slots _ _ s1)|].
    cbn [evt_type].
    change (lmkd_pack_set_subscribe ?p ?x) with (encode (SetSubscribe x) p).
    rewrite encode_wire by (exact I || exact Hp).
    unfold overwrite, wire. cbn [wire_payload encode_cmd].
    now rewrite (hton_ntoh_enum _ H1).
  - eexists. split; [now apply (get_update_props_repl_slots _ _ s1)|].
    cbn [update_props_result].
    change (lmkd_pack_set_update_props_repl ?p ?x)
      with (encode (SetUpdatePropsRepl x) p).
    rewrite encode_wire by (exact I || exact Hp).
    unfold overwrite, wire. cbn [wire_payload encode_cmd].
    now rewrite (hton_ntoh_int _ H1).
  - eexists. split; [now apply (get_boot_completed_notif_repl_slots _ _ s1)|].
    cbn [boot_completed_result].
    change (lmkd_pack_set_boot_completed_notif_repl ?p ?x)
      with (encode (SetBootCompletedNotifRepl x) p).
    rewrite encode_wire by (exact I || exact Hp).
    unfold overwrite, wire. cbn [wire_payload encode_cmd].
    now rewrite (hton_ntoh_int _ H1).
  - destruct (procs_prio_records _ Hout) as (r0 & r1 & r2 & ->).
    assert (Hcases : n = 1 \/ n = 2 \/ n = 3) by lia.
    destruct Hcases as [-> | [-> | ->]].
    + exists ({| procs := [decode_record s1 s2 s3 s4; r1; r2] |}, 1).
      split; [reflexivity|].
      change (lmkd_pack_set_procs_prio ?p ?x ?k) with (encode (SetProcsPrio x k) p).
      rewrite encode_wire by (try split; try discriminate; reflexivity || exact Hp).
      unfold overwrite, wire. cbn [wire_payload encode_cmd procs].
      change (Z.to_nat 1) with 1%nat. cbn [firstn flat_map].
      now rewrite (wire_decode_record _ _ _ _ H1 H2 H3 H4).
    + exists ({| procs := [decode_record s1 s2 s3 s4; decode_record s5 s6 s7 s8; r2] |},
              2).
      split; [reflexivity|].
      change (lmkd_pack_set_procs_prio ?p ?x ?k) with (encode (SetProcsPrio x k) p).
      rewrite encode_wire by (try split; try discriminate; reflexivity || exact Hp).
      unfold overwrite, wire. cbn [wire_payload encode_cmd procs].
      change (Z.to_nat 2) with 2%nat. cbn [firstn flat_map].
      now rewrite (wire_decode_record _ _ _ _ H1 H2 H3 H4),
        (wire_decode_record _ _ _ _ H5 H6 H7 H8).
    + exists ({| procs := [decode_record s1 s2 s3 s4; decode_record s5 s6 s7 s8;
                           decode_record s9 s10 s11 s12] |}, 3).
      split; [reflexivity|].
      change (lmkd_pack_set_procs_prio ?p ?x ?k) with (encode (SetProcsPrio x k) p).
      rewrite encode_wire by (try split; try discriminate; reflexivity || exact Hp).
      unfold overwrite, wire. cbn [wire_payload encode_cmd procs].
      change (Z.to_nat 3) with 3%nat. cbn [firstn flat_map].
      now rewrite (wire_decode_record _ _ _ _ H1 H2 H3 H4),
        (wire_decode_record _ _ _ _ H5 H6 H7 H8),
        (wire_decode_record _ _ _ _ H9 H10 H11 H12).
Qed.

(** X6. [lmkd_pack_get_target] on a control packet returns for the
    indices 0 to 5, with both members of the output read from slots
    [2i+1] and [2i+2] and nothing of its previous contents kept; for any
    other index (whose arithmetic stays within [int]) the first read, of
    slot [2i+1], is outside the packet. *)
Theorem get_target_index_bounds packet target_idx target :
  is_ctrl_packet packet ->
  INT_MIN <= target_idx * 2 + 1 -> target_idx * 2 + 2 <= INT_MAX ->
  (0 <= target_idx < MAX_TARGETS ->
   exists s1 s2,
     packet !! Z.to_nat (target_idx * 2 + 1) = Some s1
     /\ packet !! Z.to_nat (target_idx * 2 + 2) = Some s2
     /\ lmkd_pack_get_target packet target_idx target =
          Returns {| minfree := to_int32 (ntoh_slot s1);
                     oom_adj_score := to_int32 (ntoh_slot s2) |})
  /\ (target_idx < 0 \/ MAX_TARGETS <= target_idx ->
      lmkd_pack_get_target packet target_idx target =
        Undefined (PacketOutOfBounds (target_idx * 2 + 1))).
Proof.
  intros Hp Hlo Hhi.
  assert (Hlen : length packet = 13%nat) by (apply Nat2Z.inj; exact Hp).
  change MAX_TARGETS with 6. split.
  - intros Hidx.
    destruct (lookup_lt_is_Some_2 packet (Z.to_nat (target_idx * 2 + 1)) ltac:(lia))
      as [s1 H1].
    destruct (lookup_lt_is_Some_2 packet (Z.to_nat (target_idx * 2 + 2)) ltac:(lia))
      as [s2 H2].
    exists s1, s2. split; [exact H1|]. split; [exact H2|].
    rewrite <- (Z2Nat.id target_idx) at 1 by lia.
    apply get_target_slots.
    + rewrite Z2Nat.id by lia. exact Hhi.
    + now replace (2 * Z.to_nat target_idx + 1)%nat
        with (Z.to_nat (target_idx * 2 + 1)) by lia.
    + now replace (2 * Z.to_nat target_idx + 2)%nat
        with (Z.to_nat (target_idx * 2 + 2)) by lia.
  - intros Hidx. unfold lmkd_pack_get_target.
    rewrite (to_int32_id (target_idx * 2 + 1)) by (unfold is_int; lia).
    now rewrite (packet_get_outside packet (target_idx * 2 + 1)) by lia.
Qed.

(** X7. [lmkd_pack_get_procprio] checks neither the field count nor the
    buffer: it returns exactly when the buffer has the slots it reads, 4
    of them for a field count of 3 or less (a negative one included), 5
    for a larger one; and it assigns every member of the output, so that
    the result does not depend on what the struct held. *)
Theorem get_procprio_reads_four_or_five_slots packet field_count params :
  ((exists p, lmkd_pack_get_procprio packet field_count params = Returns p)
     <-> ((if (3 <? field_count)%Z then 5 else 4) <= length packet)%nat)
  /\ (forall params',
        lmkd_pack_get_procprio packet field_count params' =
          lmkd_pack_get_procprio packet field_count params).
Proof.
  split.
  - unfold lmkd_pack_get_procprio.
    destruct (3 <? field_count);
      destruct packet as [|s0 [|s1 [|s2 [|s3 [|s4 rest]]]]];
      (split; [intros [p H]; first [discriminate H | simpl; lia]
              | intros H; first [simpl in H; lia | eexists; reflexivity]]).
  - intros params'. unfold lmkd_pack_get_procprio.
    destruct (packet_get packet 1); [|reflexivity].
    destruct (packet_get packet 2); [|reflexivity].
    destruct (packet_get packet 3); [|reflexivity].
    rewrite !bind_Returns.
    destruct (3 <? field_count); [|reflexivity].
    destruct (packet_get packet 4); reflexivity.
Qed.

(** X8. The counts of the two encoders with a loop, on a control packet.
    [lmkd_pack_set_procs_prio] with a count of 0 or less writes the command
    alone and returns 4; with a count above 3 it reads [params->procs[3]],
    past the struct.  [lmkd_pack_set_target] with no target writes the
    command alone and returns 4; asked for more targets than an array of at
    most 6 holds, it reads past the array; asked for more than 6 out of an
    array that holds them, it writes [packet[13]]. *)
Theorem encoder_counts_out_of_range packet params procs_count targets target_cnt :
  is_ctrl_packet packet -> is_procs_prio params ->
  (procs_count <= 0 ->
   lmkd_pack_set_procs_prio packet params procs_count =
     Returns (<[0%nat := hton_slot (lmk_cmd_value LMK_PROCS_PRIO)]> packet, 4))
  /\ (PROCS_PRIO_MAX_RECORD_COUNT < procs_count ->
      lmkd_pack_set_procs_prio packet params procs_count =
        Undefined (ProcsOutOfBounds PROCS_PRIO_MAX_RECORD_COUNT))
  /\ lmkd_pack_set_target packet targets 0 =
       Returns (<[0%nat := hton_slot (lmk_cmd_value LMK_TARGET)]> packet, 4)
  /\ ((length targets < target_cnt)%nat ->
      Z.of_nat (length targets) <= MAX_TARGETS ->
      lmkd_pack_set_target packet targets target_cnt = Undefined TargetsOutOfBounds)
  /\ (MAX_TARGETS < Z.of_nat target_cnt -> (target_cnt <= length targets)%nat ->
      lmkd_pack_set_target packet targets target_cnt =
        Undefined (PacketOutOfBounds CTRL_PACKET_SLOTS)).
Proof.
  intros Hp Hparams.
  assert (Hlen : length packet = 13%nat) by (apply Nat2Z.inj; exact Hp).
  change MAX_TARGETS with 6. change PROCS_PRIO_MAX_RECORD_COUNT with 3.
  change CTRL_PACKET_SLOTS with 13.
  assert (Hcmd : forall v,
             packet_set packet 0 v = Returns (<[0%nat := v]> packet)).
  { intros v. destruct packet as [|s0 rest]; [discriminate Hlen|].
    now rewrite (packet_set_slot _ 0 s0). }
  split; [|split; [|split; [|split]]].
  - intros Hcount. unfold lmkd_pack_set_procs_prio.
    rewrite Hcmd. next_statement.
    replace (Z.to_nat procs_count) with 0%nat by lia.
    cbn [set_procs_prio_loop]. next_statement.
    now rewrite times_sizeof_int_slots by lia.
  - intros Hcount. unfold lmkd_pack_set_procs_prio.
    rewrite Hcmd. next_statement.
    replace (Z.to_nat procs_count)
      with (S (S (S (S (Z.to_nat procs_count - 4))))) by lia.
    now rewrite set_procs_prio_loop_overruns_procs.
  - unfold lmkd_pack_set_target.
    rewrite Hcmd. next_statement.
    cbn [set_target_loop]. next_statement.
    change (incr 0) with 1.
    now rewrite times_sizeof_int_slots by lia.
  - intros Hcnt Hsix. unfold lmkd_pack_set_target, packet_set.
    destruct packet as [|s0 rest]; [discriminate Hlen|].
    rewrite (array_set_app _ [] s0 rest 0) by reflexivity.
    next_statement. fold packet_set.
    change (incr 0) with (Z.of_nat (length ([] ++ [hton_slot 0]))).
    rewrite set_target_loop_exhausts;
      [reflexivity | reflexivity | exact Hcnt | simpl in Hlen; lia
      | simpl; unfold INT_MAX; lia].
  - intros Hcnt Htg. rewrite set_target_overrun;
      [now rewrite Hlen | exact Htg | lia | rewrite Hlen; simpl; lia].
Qed.

(** X9. What an encoder leaves to be sent is in network byte order on any
    host: the first [size] bytes of the buffer are the four bytes, most
    significant first, of the command and then of each argument in the
    order of the payload. *)
Theorem encoded_bytes_network_order c packet :
  encode_within_limits c -> is_ctrl_packet packet ->
  exists packet' size,
    encode c packet = Returns (packet', size)
    /\ take (Z.to_nat size) (packet_bytes host packet') =
         flat_map be_bytes (map to_uint32 (host_values c)).
Proof.
  intros Hc Hp.
  exists (overwrite (wire c) packet), (sizeof_int * Z.of_nat (length (wire c))).
  split; [now apply encode_wire|].
  unfold overwrite. rewrite packet_bytes_app.
  rewrite take_app_length'.
  - rewrite wire_host_values. apply packet_bytes_hton.
  - rewrite length_packet_bytes. unfold sizeof_int. lia.
Qed.

(** X11. A ProcPrio packet has the layout of a batch of one record.  On
    a control packet [lmkd_pack_set_procprio] and [lmkd_pack_set_procs_prio]
    with one record both return 20, and the two buffers they leave differ
    in slot 0 alone, where each has its command.  What the first wrote, the
    batch decoder reads with a field count of 4 as one record, the payload,
    the other records of the output being kept; what the second wrote,
    [lmkd_pack_get_procprio] reads with a field count of 4 as that
    record. *)
Theorem procprio_is_batch_of_one packet p rest out_batch out :
  is_ctrl_packet packet -> procprio_typed p ->
  is_procs_prio {| procs := p :: rest |} -> is_procs_prio out_batch ->
  exists single batch out',
    lmkd_pack_set_procprio packet p = Returns (single, 20)
    /\ lmkd_pack_set_procs_prio packet {| procs := p :: rest |} 1 =
         Returns (batch, 20)
    /\ batch = <[0%nat := hton_slot (lmk_cmd_value LMK_PROCS_PRIO)]> single
    /\ single = <[0%nat := hton_slot (lmk_cmd_value LMK_PROCPRIO)]> batch
    /\ lmkd_pack_get_procs_prio single out_batch 4 = Returns (out', 1)
    /\ procs out' = p :: drop 1 (procs out_batch)
    /\ lmkd_pack_get_procprio batch 4 out = Returns p.
Proof.
  intros Hp Hpt Hparams Hout.
  assert (Hlen : length packet = 13%nat) by (apply Nat2Z.inj; exact Hp).
  assert (Hrec : length (procs out_batch) = 3%nat) by (apply Nat2Z.inj; exact Hout).
  exists (overwrite (wire (SetProcprio p)) packet).
  exists (overwrite (wire (SetProcsPrio {| procs := p :: rest |} 1)) packet).
  exists {| procs := p :: drop 1 (procs out_batch) |}.
  split; [exact (encode_wire (SetProcprio p) packet I Hp)|].
  split.
  { change (lmkd_pack_set_procs_prio ?a ?b ?k) with (encode (SetProcsPrio b k) a).
    rewrite encode_wire by (try split; try discriminate; assumption).
    reflexivity. }
  split; [|split].
  { destruct (ctrl_packet_slots _ Hp)
      as (s0 & s1 & s2 & s3 & s4 & s5 & s6 & s7 & s8 & s9 & s10 & s11 & s12 & ->).
    reflexivity. }
  { destruct (ctrl_packet_slots _ Hp)
      as (s0 & s1 & s2 & s3 & s4 & s5 & s6 & s7 & s8 & s9 & s10 & s11 & s12 & ->).
    reflexivity. }
  split; [|split; [reflexivity|]].
  - rewrite get_procs_prio_decodes;
      [ | split; discriminate | reflexivity
        | rewrite length_overwrite; [rewrite Hlen; reflexivity | simpl; lia]
        | rewrite Hrec; discriminate ].
    do 3 f_equal.
    change (decode_records (flat_map wire_record [p]) ++ drop 1 (procs out_batch) =
              [p] ++ drop 1 (procs out_batch)).
    rewrite decode_wire_records; [reflexivity|].
    constructor; [exact Hpt | constructor].
  - change (wire (SetProcsPrio {| procs := p :: rest |} 1))
      with (hton_slot (lmk_cmd_value LMK_PROCS_PRIO) :: wire_record p).
    now apply get_procprio_after_record.
Qed.

End Codec.

(** ** Two hosts

    A packet encoded on one host and read, byte for byte, on another. *)

Lemma store_load_uint32 e a b c d :
  0 <= a < 256 -> 0 <= b < 256 -> 0 <= c < 256 -> 0 <= d < 256 ->
  store_uint32 e (load_uint32 e [a; b; c; d]) = [a; b; c; d].
Proof.
  intros Ha Hb Hc Hd. destruct e; unfold store_uint32, load_uint32.
  - now apply be_bytes_value.
  - simpl rev at 2. now rewrite be_bytes_value.
Qed.

Lemma load_uint32_range e a b c d :
  0 <= a < 256 -> 0 <= b < 256 -> 0 <= c < 256 -> 0 <= d < 256 ->
  is_uint (load_uint32 e [a; b; c; d]).
Proof.
  intros Ha Hb Hc Hd. destruct e; unfold load_uint32; simpl rev;
    now apply be_value_range.
Qed.

Lemma store_uint32_bytes e x :
  exists a b c d,
    store_uint32 e x = [a; b; c; d]
    /\ 0 <= a < 256 /\ 0 <= b < 256 /\ 0 <= c < 256 /\ 0 <= d < 256.
Proof.
  destruct e; unfold store_uint32, be_bytes; simpl rev;
    do 4 eexists; (split; [reflexivity|]);
    repeat split; apply Z.mod_pos_bound; lia.
Qed.

(** What the receiver finds in a slot where the sender put [htonl v] is
    its own [htonl v]. *)
Lemma reinterpret_hton sender receiver v :
  to_int32 (load_uint32 receiver
              (store_uint32 sender (to_uint32 (hton_slot sender v)))) =
    hton_slot receiver v.
Proof. now rewrite slot_bytes_hton. Qed.

Lemma reinterpret_wire sender receiver c :
  reinterpret sender receiver (wire sender c) = wire receiver c.
Proof.
  rewrite !wire_host_values. unfold reinterpret. rewrite map_map.
  apply map_ext. intros v. apply reinterpret_hton.
Qed.

Lemma reinterpret_overwrite sender receiver slots packet :
  reinterpret sender receiver (overwrite slots packet) =
    overwrite (reinterpret sender receiver slots) (reinterpret sender receiver packet).
Proof.
  unfold overwrite, reinterpret.
  now rewrite map_app, length_map, skipn_map.
Qed.

(** The receiver's array has the bytes of the sender's. *)
Lemma packet_bytes_reinterpret sender receiver packet :
  packet_bytes receiver (reinterpret sender receiver packet) =
    packet_bytes sender packet.
Proof.
  induction packet as [|s packet IH]; [reflexivity|].
  unfold packet_bytes, reinterpret in *. simpl. rewrite IH. f_equal.
  destruct (store_uint32_bytes sender (to_uint32 s))
    as (a & b & c & d & -> & Ha & Hb & Hc & Hd).
  rewrite to_uint32_to_int32 by now apply load_uint32_range.
  now apply store_load_uint32.
Qed.

(** X10. Packets cross hosts of different byte order.  The buffer whose
    bytes are those an encoder left on the sender is the buffer the same
    encoder leaves on the receiver; and a ProcPrio packet encoded by the
    sender is decoded by the receiver, from those bytes, to the payload
    that was encoded. *)
Theorem packets_cross_hosts sender receiver model c packet p out :
  encode_within_limits c -> is_ctrl_packet packet -> procprio_typed p ->
  (exists packet' size,
      encode sender model c packet = Returns (packet', size)
      /\ packet_bytes receiver (reinterpret sender receiver packet') =
           packet_bytes sender packet'
      /\ encode receiver model c (reinterpret sender receiver packet) =
           Returns (reinterpret sender receiver packet', size))
  /\ (exists packet' size,
         lmkd_pack_set_procprio sender model packet p = Returns (packet', size)
         /\ lmkd_pack_get_procprio receiver
              (reinterpret sender receiver packet') 4 out = Returns p).
Proof.
  intros Hc Hp Hpt.
  assert (Hp' : is_ctrl_packet (reinterpret sender receiver packet)).
  { unfold is_ctrl_packet, reinterpret. now rewrite length_map. }
  split.
  - exists (overwrite (wire sender c) packet),
      (sizeof_int * Z.of_nat (length (wire sender c))).
    split; [now apply encode_wire|].
    split; [apply packet_bytes_reinterpret|].
    rewrite reinterpret_overwrite, reinterpret_wire.
    rewrite (encode_wire receiver model c _ Hc Hp').
    do 3 f_equal. rewrite <- (reinterpret_wire sender receiver).
    unfold reinterpret. now rewrite length_map.
  - exists (overwrite (wire sender (SetProcprio p)) packet),
      (sizeof_int * Z.of_nat (length (wire sender (SetProcprio p)))).
    split; [exact (encode_wire sender model (SetProcprio p) packet I Hp)|].
    rewrite reinterpret_overwrite, reinterpret_wire.
    now apply get_procprio_overwrite.
Qed.

(** ** The properties at sample values

    Each statement above that rests on hypotheses is used once, on a
    little-endian LP64 host, with its hypotheses established at the values
    of [Example]. *)

Lemma get_procs_prio_field_count_validation_witness :
  lmkd_pack_get_procs_prio LittleEndian Example.packet Example.no_batch 5
    = Returns (Example.no_batch, -1)
  /\ exists params',
      lmkd_pack_get_procs_prio LittleEndian Example.packet Example.no_batch 8
        = Returns (params', 2).
Proof.
  split.
  - apply (proj1 (proj2 (get_procs_prio_field_count_validation
                           LittleEndian Example.packet Example.no_batch 5))).
    simpl. do 4 right. left. reflexivity.
  - destruct (proj2 (proj2 (get_procs_prio_field_count_validation
                              LittleEndian Example.packet Example.no_batch 8)))
      as [params' [H _]].
    + simpl. right. left. reflexivity.
    + reflexivity.
    + reflexivity.
    + exists params'. exact H.
Defined.

Lemma get_procs_prio_failure_keeps_output_witness :
  lmkd_pack_get_procs_prio LittleEndian Example.packet Example.batch 6
    = Returns (Example.batch, -1).
Proof.
  apply (get_procs_prio_failure_keeps_output
           LittleEndian Example.packet Example.batch 6).
  right. discriminate.
Defined.

Lemma get_procs_prio_no_upper_bound_witness :
  lmkd_pack_get_procs_prio LittleEndian Example.packet Example.no_batch 16
    = Undefined (PacketOutOfBounds 13).
Proof.
  apply (get_procs_prio_no_upper_bound
           LittleEndian Example.packet Example.no_batch 16).
  - split; discriminate.
  - reflexivity.
  - reflexivity.
  - reflexivity.
  - reflexivity.
Defined.

Lemma encode_returns_bytes_used_witness :
  exists packet',
    lmkd_pack_set_target LittleEndian LP64 Example.packet Example.targets 6
      = Returns (packet', 52).
Proof.
  apply (encode_returns_bytes_used LittleEndian LP64
           (SetProcprio Example.procprio) Example.packet Example.targets 6
           Example.batch).
  - reflexivity.
  - exact I.
  - discriminate.
  - simpl. lia.
  - reflexivity.
  - reflexivity.
Defined.

Lemma procs_prio_batch_roundtrip_witness :
  exists packet' out',
    lmkd_pack_set_procs_prio LittleEndian LP64 Example.packet Example.batch 2
      = Returns (packet', 36)
    /\ lmkd_pack_get_procs_prio LittleEndian packet' Example.no_batch 8
      = Returns (out', 2)
    /\ take 2 (procs out') = take 2 (procs Example.batch)
    /\ drop 2 (procs out') = drop 2 (procs Example.no_batch).
Proof.
  apply (procs_prio_batch_roundtrip LittleEndian LP64
           Example.packet Example.batch Example.no_batch 2).
  - reflexivity.
  - reflexivity.
  - reflexivity.
  - split; discriminate.
  - repeat constructor; discriminate.
Defined.

Lemma decode_encode_roundtrip_witness :
  decodes_back
    (lmkd_pack_set_procprio LittleEndian LP64 Example.packet Example.procprio)
    (fun packet' => lmkd_pack_get_procprio LittleEndian packet' 4 Example.no_procprio)
    Example.procprio.
Proof.
  apply (decode_encode_roundtrip LittleEndian LP64
           Example.packet Example.targets 2
           {| minfree := 27648; oom_adj_score := 200 |}
           {| minfree := 0; oom_adj_score := 0 |}
           Example.procprio Example.no_procprio
           {| procremove_pid := 1234 |} {| procremove_pid := 0 |}
           {| min_oomadj := 0; max_oomadj := 900 |}
           {| min_oomadj := 0; max_oomadj := 0 |}
           LMK_ASYNC_EVENT_STAT {| evt_type := LMK_ASYNC_EVENT_KILL |}
           (-1) {| update_props_result := 0 |} {| boot_completed_result := 0 |}).
  - reflexivity.
  - discriminate.
  - reflexivity.
  - repeat split; discriminate.
  - repeat split; discriminate.
  - split; discriminate.
  - repeat split; discriminate.
  - split; discriminate.
  - split; discriminate.
Defined.

Lemma get_procprio_backward_compatible_witness :
  decodes_back
    (lmkd_pack_set_procprio LittleEndian LP64 Example.packet Example.procprio)
    (fun packet' => lmkd_pack_get_procprio LittleEndian packet' 3 Example.no_procprio)
    {| pid := 1234; uid := 10000; oomadj := 900; ptype := PROC_TYPE_APP |}.
Proof.
  apply (get_procprio_backward_compatible LittleEndian LP64
           Example.packet Example.no_procprio 0 0 0 0
           Example.packet Example.procprio).
  - reflexivity.
  - reflexivity.
  - reflexivity.
  - reflexivity.
  - reflexivity.
  - repeat split; discriminate.
Defined.

Lemma get_cmd_reads_slot_0_witness :
  (exists packet' size,
      encode LittleEndian LP64 StartMonitoring Example.packet
        = Returns (packet', size)
      /\ lmkd_pack_get_cmd LittleEndian packet' = Returns 9)
  /\ lmkd_pack_get_cmd LittleEndian (<[0%nat := hton_slot LittleEndian 12]> Example.packet)
    = Returns 12.
Proof.
  destruct (get_cmd_reads_slot_0 LittleEndian LP64
              StartMonitoring Example.packet Example.packet 0 12)
    as ((packet' & size & Henc & _ & Hcmd) & _ & _ & Hany & _).
  - exact I.
  - reflexivity.
  - reflexivity.
  - split; discriminate.
  - split; [|exact Hany].
    exists packet', size. split; [exact Henc | exact Hcmd].
Defined.

Lemma only_batch_decoder_fails_witness :
  exists v,
    decode LittleEndian (GetProcprio (-7) Example.no_procprio) Example.packet
      = Returns v.
Proof.
  destruct (only_batch_decoder_fails LittleEndian LP64
              Example.packet Example.no_batch 8)
    as (_ & _ & Hdecode & _).
  - reflexivity.
  - apply Hdecode. exact I.
Defined.


Lemma encode_needs_its_slots_witness :
  encode LittleEndian LP64 (SetProcprio Example.procprio) [7; 7; 7]
    = Undefined (PacketOutOfBounds 3).
Proof.
  apply (encode_needs_its_slots LittleEndian LP64
           (SetProcprio Example.procprio) [7; 7; 7]).
  - exact I.
  - discriminate.
  - simpl. lia.
Defined.


Lemma encode_over_encode_witness :
  exists packet1 size1 packet2 size2,
    encode LittleEndian LP64 (SetTarget Example.targets 6) Example.packet
      = Returns (packet1, size1)
    /\ encode LittleEndian LP64 SetProcpurge packet1 = Returns (packet2, size2)
    /\ drop 1 packet2 = drop 1 packet1.
Proof.
  destruct (encode_over_encode LittleEndian LP64
              (SetTarget Example.targets 6) SetProcpurge Example.packet)
    as (packet1 & size1 & packet2 & size2 & H1 & H2 & _ & H4 & _).
  - split; [discriminate | simpl; lia].
  - exact I.
  - reflexivity.
  - exists packet1, size1, packet2, size2. repeat split; assumption.
Defined.

Lemma cmd_and_size_tell_encoder_witness :
  encoder_of (SetUpdatePropsRepl 0) = encoder_of (SetUpdatePropsRepl (-1)).
Proof.
  apply (cmd_and_size_tell_encoder LittleEndian LP64
           (SetUpdatePropsRepl 0) (SetUpdatePropsRepl (-1))
           Example.packet Example.received
           (overwrite (wire LittleEndian (SetUpdatePropsRepl 0)) Example.packet)
           (overwrite (wire LittleEndian (SetUpdatePropsRepl (-1))) Example.received)
           8).
  - vm_compute. reflexivity.
  - vm_compute. reflexivity.
  - vm_compute. reflexivity.
Defined.

Lemma decode_then_encode_restores_slots_witness :
  reencodes
    (lmkd_pack_get_procs_prio LittleEndian Example.received Example.no_batch 8)
    (fun '(params, count) =>
       lmkd_pack_set_procs_prio LittleEndian LP64 Example.received params count)
    (<[0%nat := hton_slot LittleEndian (lmk_cmd_value LMK_PROCS_PRIO)]>
       Example.received)
    36.
Proof.
  apply (decode_then_encode_restores_slots LittleEndian LP64 Example.received
           Example.no_procprio {| procremove_pid := 0 |}
           {| min_oomadj := 0; max_oomadj := 0 |}
           {| evt_type := LMK_ASYNC_EVENT_KILL |}
           {| update_props_result := 0 |} {| boot_completed_result := 0 |}
           Example.no_batch 2).
  - reflexivity.
  - repeat constructor; discriminate.
  - reflexivity.
  - split; discriminate.
Defined.

Lemma get_target_index_bounds_witness :
  lmkd_pack_get_target LittleEndian Example.received 6
    {| minfree := 0; oom_adj_score := 0 |}
  = Undefined (PacketOutOfBounds 13).
Proof.
  apply (get_target_index_bounds LittleEndian Example.received 6
           {| minfree := 0; oom_adj_score := 0 |}).
  - reflexivity.
  - discriminate.
  - discriminate.
  - right. discriminate.
Defined.

Lemma get_procprio_reads_four_or_five_slots_witness :
  (exists p,
      lmkd_pack_get_procprio LittleEndian [5; 16777216; -771489792; 270991360]
        3 Example.no_procprio = Returns p)
  /\ ~ (exists p,
         lmkd_pack_get_procprio LittleEndian [5; 16777216; -771489792; 270991360]
           4 Example.no_procprio = Returns p).
Proof.
  split.
  - apply (proj1 (get_procprio_reads_four_or_five_slots LittleEndian
                    [5; 16777216; -771489792; 270991360] 3 Example.no_procprio)).
    simpl. lia.
  - intros H.
    apply (proj1 (get_procprio_reads_four_or_five_slots LittleEndian
                    [5; 16777216; -771489792; 270991360] 4 Example.no_procprio))
      in H.
    simpl in H. lia.
Defined.

Lemma encoder_counts_out_of_range_witness :
  lmkd_pack_set_procs_prio LittleEndian LP64 Example.packet Example.batch 4
    = Undefined (ProcsOutOfBounds 3)
  /\ lmkd_pack_set_target LittleEndian LP64 Example.packet Example.targets 7
    = Undefined TargetsOutOfBounds.
Proof.
  destruct (encoder_counts_out_of_range LittleEndian LP64
              Example.packet Example.batch 4 Example.targets 7)
    as (_ & Hprocs & _ & Htargets & _).
  - reflexivity.
  - reflexivity.
  - split.
    + apply Hprocs. reflexivity.
    + apply Htargets; [simpl; lia | discriminate].
Defined.

Lemma encoded_bytes_network_order_witness :
  exists packet' size,
    encode LittleEndian LP64 (SetProcprio Example.procprio) Example.packet
      = Returns (packet', size)
    /\ take (Z.to_nat size) (packet_bytes LittleEndian packet') =
         [0; 0; 0; 1;  0; 0; 4; 210;  0; 0; 39; 16;  0; 0; 3; 132;  0; 0; 0; 1].
Proof.
  apply (encoded_bytes_network_order LittleEndian LP64
           (SetProcprio Example.procprio) Example.packet).
  - exact I.
  - reflexivity.
Defined.

Lemma packets_cross_hosts_witness :
  exists packet' size,
    lmkd_pack_set_procprio LittleEndian LP64 Example.packet Example.procprio
      = Returns (packet', size)
    /\ lmkd_pack_get_procprio BigEndian
         (reinterpret LittleEndian BigEndian packet') 4 Example.no_procprio
       = Returns Example.procprio.
Proof.
  apply (packets_cross_hosts LittleEndian BigEndian LP64
           SetProcpurge Example.packet Example.procprio Example.no_procprio).
  - exact I.
  - reflexivity.
  - repeat split; discriminate.
Defined.

Lemma procprio_is_batch_of_one_witness :
  exists single batch out',
    lmkd_pack_set_procprio LittleEndian LP64 Example.packet Example.procprio
      = Returns (single, 20)
    /\ lmkd_pack_set_procs_prio LittleEndian LP64 Example.packet
         {| procs := [Example.procprio; Example.no_procprio; Example.no_procprio] |} 1
       = Returns (batch, 20)
    /\ batch = <[0%nat := hton_slot LittleEndian (lmk_cmd_value LMK_PROCS_PRIO)]> single
    /\ single = <[0%nat := hton_slot LittleEndian (lmk_cmd_value LMK_PROCPRIO)]> batch
    /\ lmkd_pack_get_procs_prio LittleEndian single Example.no_batch 4
       = Returns (out', 1)
    /\ procs out' = Example.procprio :: drop 1 (procs Example.no_batch)
    /\ lmkd_pack_get_procprio LittleEndian batch 4 Example.no_procprio
       = Returns Example.procprio.
Proof.
  apply (procprio_is_batch_of_one LittleEndian LP64 Example.packet
           Example.procprio [Example.no_procprio; Example.no_procprio]
           Example.no_batch Example.no_procprio).
  - reflexivity.
  - repeat split; discriminate.
  - reflexivity.
  - reflexivity.
Defined.
